(** * Terrain metrics of [get_topography.py]

    A shallow embedding of [haversine_distance] and
    [analyze_and_export_metrics].

    Numbers.  The program computes on IEEE binary64 values through numpy
    and pandas.  Here a finite float is a real number ([R]) and every
    operation is the exact real operation, so rounding, overflow and signed
    zeros are outside the model.  The one non-finite value the program
    relies on, NaN (pandas' missing value), is kept: a cell of a table is
    an [option R] and [None] is NaN, propagated by every arithmetic
    operation and failing every comparison, as in numpy.  What rounding
    does to the great-circle formula is looked at separately, in
    [Binary64], where the same function runs on binary64 values.

    Tables.  A [DataFrame] is its column labels and its rows in index
    order; a row maps a column label to a cell.  Column assignment,
    [shift], [diff], boolean-mask selection and the NaN-skipping reductions
    are written out as pandas defines them.

    Sorting.  [sort_values] is called with pandas' default kind, whose
    algorithm lives in numpy; the reordering is a parameter of the model
    ([Sorter]) and what pandas promises of it is [sort_contract].

    Effects.  Printing and the optional report file are events of a trace;
    loading the spreadsheet and writing the report file are the two calls
    into the environment, both of which may raise. *)

From Stdlib Require Import Reals Lra Lia List String Bool Arith.
From Stdlib Require Import Permutation Sorted.
From Stdlib Require Floats.PrimFloat.
Import ListNotations.

Open Scope R_scope.

(** ** numpy operands

    [haversine_distance] is written once and called on pandas Series; it
    works as well on scalars.  The operations its body uses are collected
    in a class, with one instance per kind of operand. *)

Class Operand (T : Type) : Type := {
  op_add : T -> T -> T;            (* x + y *)
  op_sub : T -> T -> T;            (* x - y *)
  op_mul : T -> T -> T;            (* x * y *)
  op_div_by : T -> R -> T;         (* x / k, k a Python number *)
  op_from : R -> T -> T;           (* k - x *)
  op_scale : R -> T -> T;          (* k * x *)
  op_square : T -> T;              (* x ** 2 *)
  np_sin : T -> T;
  np_cos : T -> T;
  np_sqrt : T -> T;
  np_arctan2 : T -> T -> T
}.

(** [np.arctan2 y x] on finite arguments: the angle of the point [(x, y)],
    in (-PI, PI]. *)
Definition arctan2 (y x : R) : R :=
  if Rlt_dec 0 x then atan (y / x)
  else if Rlt_dec x 0 then
    (if Rle_dec 0 y then atan (y / x) + PI else atan (y / x) - PI)
  else if Rlt_dec 0 y then PI / 2
  else if Rlt_dec y 0 then - (PI / 2)
  else 0.

#[export] Instance Operand_R : Operand R := {|
  op_add := Rplus;
  op_sub := Rminus;
  op_mul := Rmult;
  op_div_by := Rdiv;
  op_from := Rminus;
  op_scale := Rmult;
  op_square := Rsqr;
  np_sin := sin;
  np_cos := cos;
  np_sqrt := sqrt;
  np_arctan2 := arctan2
|}.

(** A cell of a table: a float, [None] being NaN. *)
Definition cell : Type := option R.

Definition cell1 (f : R -> R) (x : cell) : cell := option_map f x.

Definition cell2 (f : R -> R -> R) (x y : cell) : cell :=
  match x, y with
  | Some a, Some b => Some (f a b)
  | _, _ => None
  end.

#[export] Instance Operand_cell : Operand cell := {|
  op_add := cell2 Rplus;
  op_sub := cell2 Rminus;
  op_mul := cell2 Rmult;
  op_div_by := fun x k => cell1 (fun a => a / k) x;
  op_from := fun k x => cell1 (Rminus k) x;
  op_scale := fun k x => cell1 (Rmult k) x;
  op_square := cell1 Rsqr;
  np_sin := cell1 sin;
  np_cos := cell1 cos;
  np_sqrt := cell1 sqrt;
  np_arctan2 := cell2 arctan2
|}.

(** A pandas Series of floats under the default [RangeIndex]: its values
    in index order. *)
Definition Series : Type := list cell.

(** Element-wise operations.  Two Series are aligned on their index; a
    label present in one only gives NaN. *)
Fixpoint align2 (f : cell -> cell -> cell) (s t : Series) : Series :=
  match s with
  | [] => map (f None) t
  | x :: s' =>
      match t with
      | [] => f x None :: align2 f s' []
      | y :: t' => f x y :: align2 f s' t'
      end
  end.

#[export] Instance Operand_Series : Operand Series := {|
  op_add := align2 op_add;
  op_sub := align2 op_sub;
  op_mul := align2 op_mul;
  op_div_by := fun s k => map (fun x => op_div_by x k) s;
  op_from := fun k s => map (op_from k) s;
  op_scale := fun k s => map (op_scale k) s;
  op_square := map op_square;
  np_sin := map np_sin;
  np_cos := map np_cos;
  np_sqrt := map np_sqrt;
  np_arctan2 := align2 np_arctan2
|}.

(** ** [haversine_distance] *)

(** The default of the keyword argument [earth_radius_m]. *)
Definition earth_radius_m_default : R := 6371000.

Definition haversine_distance {T : Type} `{Operand T}
    (lat1_rad lon1_rad lat2_rad lon2_rad : T) (earth_radius_m : R) : T :=
  let delta_lat := op_sub lat2_rad lat1_rad in
  let delta_lon := op_sub lon2_rad lon1_rad in
  let a :=
    op_add (op_square (np_sin (op_div_by delta_lat 2)))
           (op_mul (op_mul (np_cos lat1_rad) (np_cos lat2_rad))
                   (op_square (np_sin (op_div_by delta_lon 2)))) in
  let c := op_scale 2 (np_arctan2 (np_sqrt a) (np_sqrt (op_from 1 a))) in
  let distance := op_scale earth_radius_m c in
  distance.

(** The intermediate [a] of the formula, as the specification writes it. *)
Definition hav_a (lat1 lon1 lat2 lon2 : R) : R :=
  (sin ((lat2 - lat1) / 2))² + cos lat1 * cos lat2 * (sin ((lon2 - lon1) / 2))².

(** The central angle [c] of the formula, as the specification writes it. *)
Definition hav_c (a : R) : R := 2 * arctan2 (sqrt a) (sqrt (1 - a)).

(** ** [haversine_distance] on binary64 values

    Lines 11-18 again, on IEEE binary64 values.  Addition, subtraction,
    multiplication, division and the square root are the correctly
    rounded operations of the standard, which is what numpy performs;
    [x ** 2] is the product [x * x].  The sine, the cosine and the arc
    tangent are computed by the C library behind numpy, which is not part
    of the repository: they are a parameter. *)
Module Binary64.
Import PrimFloat.
#[local] Open Scope float_scope.

Record Libm : Type := {
  libm_sin : float -> float;
  libm_cos : float -> float;
  libm_arctan2 : float -> float -> float
}.

Definition earth_radius_m_default : float := 6371000.

Definition haversine_distance (m : Libm)
    (lat1_rad lon1_rad lat2_rad lon2_rad earth_radius_m : float) : float :=
  let delta_lat := lat2_rad - lat1_rad in
  let delta_lon := lon2_rad - lon1_rad in
  let a :=
    libm_sin m (delta_lat / 2) * libm_sin m (delta_lat / 2)
    + libm_cos m lat1_rad * libm_cos m lat2_rad
      * (libm_sin m (delta_lon / 2) * libm_sin m (delta_lon / 2)) in
  let c := 2 * libm_arctan2 m (sqrt a) (sqrt (1 - a)) in
  let distance := earth_radius_m * c in
  distance.

(** The value line 14 binds to [a]. *)
Definition hav_a (m : Libm) (lat1_rad lon1_rad lat2_rad lon2_rad : float)
    : float :=
  let delta_lat := lat2_rad - lat1_rad in
  let delta_lon := lon2_rad - lon1_rad in
  libm_sin m (delta_lat / 2) * libm_sin m (delta_lat / 2)
  + libm_cos m lat1_rad * libm_cos m lat2_rad
    * (libm_sin m (delta_lon / 2) * libm_sin m (delta_lon / 2)).

(** A table of the three functions at the arguments the pair of points
    (latitude -0.08 degrees, longitude 0) and (latitude 0.08 degrees,
    longitude 180 degrees) leads to, with the correctly rounded values;
    not a number elsewhere.  The arc tangent is only ever called there
    with a NaN argument. *)
Definition near_antipodal_table : Libm := {|
  libm_sin := fun x =>
    if x =? 0x1.921fb54442d18p+0 then 1
    else if x =? 0x1.6e05a695f8191p-10 then 0x1.6e059ecaa87dcp-10
    else nan;
  libm_cos := fun x =>
    if abs x =? 0x1.6e05a695f8191p-10 then 0x1.ffffdf4abdd1ep-1 else nan;
  libm_arctan2 := fun _ _ => nan
|}.

End Binary64.

(** ** Exceptions and results *)

(** The exceptions the program can meet, all of them subclasses of
    Python's [Exception]. *)
Inductive exn : Type :=
| FileNotFoundError
| KeyError (label : string)
| OtherException (what : string).

Inductive result (A : Type) : Type :=
| Ok (a : A)
| Raise (e : exn).

Arguments Ok {A} a.
Arguments Raise {A} e.

(** ** Data frames *)

(** A row maps a column label to its cell.  Only numeric columns are
    modelled: a cell that holds text or a date, on which the arithmetic
    after the checks of lines 48-52 would raise, is outside the model.
    [pd.read_excel] makes the labels of a sheet unique. *)
Definition Row : Type := string -> cell.

Record DataFrame : Type := mkDataFrame {
  columns : list string;
  rows : list Row
}.

(** [col in df.columns] *)
Definition has_column (df : DataFrame) (col : string) : bool :=
  existsb (String.eqb col) (columns df).

(** [df.empty]: some axis has length 0. *)
Definition df_empty (df : DataFrame) : bool :=
  match columns df, rows df with
  | [], _ => true
  | _, [] => true
  | _, _ => false
  end.

(** [len(df)] *)
Definition df_len (df : DataFrame) : nat := List.length (rows df).

(** The values of one column, in row order. *)
Definition col_view (rs : list Row) (c : string) : Series :=
  map (fun r => r c) rs.

(** [df[col]]: raises [KeyError] on an absent label. *)
Definition getitem (df : DataFrame) (col : string) : result Series :=
  if has_column df col then Ok (col_view (rows df) col)
  else Raise (KeyError col).

Definition set_cell (r : Row) (col : string) (v : cell) : Row :=
  fun c => if String.eqb c col then v else r c.

(** The rows after [df[col] = s]: the Series is aligned on the index of
    the frame, a row without a value in [s] gets NaN. *)
Fixpoint assign_rows (rs : list Row) (col : string) (s : Series) : list Row :=
  match rs with
  | [] => []
  | r :: rs' => set_cell r col (hd None s) :: assign_rows rs' col (tl s)
  end.

(** [df[col] = s]: replaces the column or appends a new one. *)
Definition setitem (df : DataFrame) (col : string) (s : Series) : DataFrame :=
  {| columns := if has_column df col then columns df else columns df ++ [col];
     rows := assign_rows (rows df) col s |}.

(** The ascending order of [sort_values] on a key column, NaN last
    ([na_position='last']). *)
Definition cell_le (x y : cell) : Prop :=
  match x, y with
  | Some a, Some b => a <= b
  | _, None => True
  | None, Some _ => False
  end.

(** [DataFrame.sort_values(by=...)] is called with its default
    [kind='quicksort'].  The algorithm is numpy's and not part of the
    program, so the reordering of the rows on a key is a parameter of
    the model. *)
Class Sorter : Type := {
  reorder : (Row -> cell) -> list Row -> list Row
}.

(** What pandas promises of [sort_values] for that kind: the same rows,
    in ascending order of the key; nothing about rows with equal keys. *)
Definition sort_contract (S : Sorter) : Prop :=
  (forall key l, Permutation (reorder key l) l)
  /\ (forall key l,
        StronglySorted (fun r r' => cell_le (key r) (key r')) (reorder key l)).

(** [df.sort_values(by=col)]: raises [KeyError] on an absent label. *)
Definition sort_values `{Sorter} (df : DataFrame) (col : string)
    : result DataFrame :=
  if has_column df col
  then Ok {| columns := columns df; rows := reorder (fun r => r col) (rows df) |}
  else Raise (KeyError col).

(** [df.reset_index(drop=True)]: the index becomes 0..n-1 again, which is
    the position of a row in [rows]. *)
Definition reset_index_drop (df : DataFrame) : DataFrame := df.

(** [s.shift(1)] *)
Definition shift1 (s : Series) : Series :=
  match s with
  | [] => []
  | _ :: _ => None :: removelast s
  end.

(** [s.diff()] *)
Definition diff (s : Series) : Series := op_sub s (shift1 s).

(** [s.abs()] *)
Definition series_abs (s : Series) : Series := map (cell1 Rabs) s.

(** [s / t] on two Series *)
Definition series_div (s t : Series) : Series := align2 (cell2 Rdiv) s t.

(** [np.radians] and [np.degrees] *)
Definition radians (x : R) : R := x * (PI / 180).
Definition degrees (x : R) : R := x * (180 / PI).
Definition np_radians (s : Series) : Series := map (cell1 radians) s.

(** [x >= k] on a cell: false on NaN. *)
Definition cell_ge (x : cell) (k : R) : bool :=
  match x with
  | Some v => if Rle_dec k v then true else false
  | None => false
  end.

(** [s >= k]: the boolean mask. *)
Definition series_ge (s : Series) (k : R) : list bool :=
  map (fun x => cell_ge x k) s.

Fixpoint select_rows (rs : list Row) (mask : list bool) : list Row :=
  match rs, mask with
  | r :: rs', b :: mask' =>
      if b then r :: select_rows rs' mask' else select_rows rs' mask'
  | _, _ => []
  end.

(** [df[mask].copy()] *)
Definition select (df : DataFrame) (mask : list bool) : DataFrame :=
  {| columns := columns df; rows := select_rows (rows df) mask |}.

(** ** Reductions ([skipna=True]) *)

Definition dropna (s : Series) : list R :=
  flat_map (fun x => match x with Some v => [v] | None => [] end) s.

Fixpoint insert_sorted (x : R) (l : list R) : list R :=
  match l with
  | [] => [x]
  | y :: l' => if Rle_dec x y then x :: l else y :: insert_sorted x l'
  end.

(** The values in ascending order. *)
Definition sorted_values (l : list R) : list R := fold_right insert_sorted [] l.

Definition sum_values (l : list R) : R := fold_right Rplus 0 l.

(** [s.max()] *)
Definition series_max (s : Series) : cell :=
  match dropna s with
  | [] => None
  | v :: vs => Some (fold_left Rmax vs v)
  end.

(** [s.mean()] *)
Definition series_mean (s : Series) : cell :=
  match dropna s with
  | [] => None
  | vs => Some (sum_values vs / INR (List.length vs))
  end.

(** [s.median()]: the middle value, or the mean of the two middle ones. *)
Definition series_median (s : Series) : cell :=
  match dropna s with
  | [] => None
  | vs =>
      let sorted := sorted_values vs in
      let n := List.length vs in
      Some (if Nat.even n
            then (nth (n / 2 - 1) sorted 0 + nth (n / 2) sorted 0) / 2
            else nth (n / 2) sorted 0)
  end.

(** [v if not pd.isna(v) else 0.0] *)
Definition nan_to_zero (v : cell) : R :=
  match v with
  | Some x => x
  | None => 0
  end.

(** ** The metrics record and what the function prints and writes *)

Record Results : Type := mkResults {
  File_Path : string;
  Max_Slope_Ratio_m_m : R;
  Median_Absolute_Slope_m_m : R;
  Mean_Absolute_Slope_m_m : R;
  Max_Grade_Percent : R;
  Median_Grade_Percent : R;
  Mean_Grade_Percent : R;
  Max_Grade_Angle_Degrees : R;
  Max_Vertical_Step_m : R;
  Median_Vertical_Step_m : R;
  Mean_Vertical_Step_m : R
}.

(** The values formatted into [output_lines]; the rendering of a float as
    text is not modelled. *)
Record OutputLines : Type := mkOutputLines {
  line_threshold : R;
  line_filtered : Z;
  line_mean_grade : R;
  line_median_grade : R;
  line_max_grade : R;
  line_mean_step : R;
  line_median_step : R;
  line_max_step : R
}.

(** The text written to [output_filename]: the lines, then the raw
    key/value dump of the record. *)
Record Report : Type := mkReport {
  report_lines : OutputLines;
  report_raw : Results
}.

Inductive message : Type :=
| MsgInitiating (file_path : string)
| MsgErrorNotFound (file_path : string)
| MsgErrorLoad (e : exn)
| MsgErrorEmptyOrMissing (required_cols : list string)
| MsgFinalMetrics (lines : OutputLines)
| MsgExported (output_filename : string)
| MsgWarningNotWritten (output_filename : string) (e : exn).

Inductive event : Type :=
| Printed (m : message)
| FileWritten (name : string) (content : Report).

(** The two calls into the environment. *)
Record Env : Type := mkEnv {
  read_excel : string -> result DataFrame;
  write_text : string -> Report -> result unit
}.

(** ** Sequencing *)

Definition rbind {A B : Type} (r : result A) (k : A -> result B) : result B :=
  match r with
  | Ok a => k a
  | Raise e => Raise e
  end.

Notation "x <- r ;; k" := (rbind r (fun x => k))
  (at level 61, r at next level, right associativity).

(** A computation that prints and writes: it extends the trace of events
    and returns or raises. *)
Definition Prog (A : Type) : Type := list event -> result A * list event.

Definition ret {A : Type} (a : A) : Prog A := fun tr => (Ok a, tr).

Definition bind {A B : Type} (m : Prog A) (k : A -> Prog B) : Prog B :=
  fun tr =>
    match m tr with
    | (Ok a, tr') => k a tr'
    | (Raise e, tr') => (Raise e, tr')
    end.

Definition lift {A : Type} (r : result A) : Prog A := fun tr => (r, tr).

Definition emit (e : event) : Prog unit := fun tr => (Ok tt, tr ++ [e]).

Definition print (m : message) : Prog unit := emit (Printed m).

(** [try: m  except Exception as e: h e] *)
Definition try_except {A : Type} (m : Prog A) (h : exn -> Prog A) : Prog A :=
  fun tr =>
    match m tr with
    | (Ok a, tr') => (Ok a, tr')
    | (Raise e, tr') => h e tr'
    end.

Notation "x <~ m ;; k" := (bind m (fun x => k))
  (at level 61, m at next level, right associativity).
Notation "m ;;; k" := (bind m (fun _ => k))
  (at level 61, right associativity).

(** Running a computation from the empty trace. *)
Definition run {A : Type} (m : Prog A) : result A * list event := m [].
Definition returned {A : Type} (m : Prog A) : result A := fst (run m).
Definition trace {A : Type} (m : Prog A) : list event := snd (run m).

(** ** [analyze_and_export_metrics] *)

(** The defaults of the column arguments. *)
Definition lon_col_default : string := "x".
Definition lat_col_default : string := "y".
Definition z_col_default : string := "ZCOORD".
Definition id_col_default : string := "ID".

Definition MIN_HORIZONTAL_STEP_M : R := 1 / 100.

(** Lines 56-74: sort by id, then add the columns of the previous point,
    of the angles in radians, of the horizontal distance and of the
    vertical change. *)
Definition step_columns `{Sorter} (df : DataFrame)
    (lon_col lat_col z_col id_col : string) : result DataFrame :=
  df <- sort_values df id_col ;;
  let df := reset_index_drop df in
  lat <- getitem df lat_col ;;
  let df := setitem df "prev_lat" (shift1 lat) in
  lon <- getitem df lon_col ;;
  let df := setitem df "prev_lon" (shift1 lon) in
  lat <- getitem df lat_col ;;
  let df := setitem df "lat_rad" (np_radians lat) in
  lon <- getitem df lon_col ;;
  let df := setitem df "lon_rad" (np_radians lon) in
  prev_lat <- getitem df "prev_lat" ;;
  let df := setitem df "prev_lat_rad" (np_radians prev_lat) in
  prev_lon <- getitem df "prev_lon" ;;
  let df := setitem df "prev_lon_rad" (np_radians prev_lon) in
  prev_lat_rad <- getitem df "prev_lat_rad" ;;
  prev_lon_rad <- getitem df "prev_lon_rad" ;;
  lat_rad <- getitem df "lat_rad" ;;
  lon_rad <- getitem df "lon_rad" ;;
  let df := setitem df "d_horizontal_m"
              (haversine_distance prev_lat_rad prev_lon_rad lat_rad lon_rad
                 earth_radius_m_default) in
  z <- getitem df z_col ;;
  let df := setitem df "dZ_m" (diff z) in
  Ok df.

(** Lines 76-81: drop the steps shorter than the threshold, then add the
    absolute slope. *)
Definition clean_steps (df : DataFrame) : result DataFrame :=
  d_horizontal_m <- getitem df "d_horizontal_m" ;;
  let df_cleaned := select df (series_ge d_horizontal_m MIN_HORIZONTAL_STEP_M) in
  dZ_m <- getitem df_cleaned "dZ_m" ;;
  d_horizontal_m <- getitem df_cleaned "d_horizontal_m" ;;
  let df_cleaned :=
    setitem df_cleaned "Absolute_Slope"
      (series_abs (series_div dZ_m d_horizontal_m)) in
  Ok df_cleaned.

(** The three reductions of one column, as computed at lines 84-86 and
    92-94: max, median, mean. *)
Definition max_median_mean (s : Series) : cell * cell * cell :=
  (series_max s, series_median s, series_mean s).

(** Lines 96-125: NaN becomes 0.0, units are converted, the record is
    built. *)
Definition compile_results (file_path : string)
    (slope step : cell * cell * cell) : Results :=
  let '(max_slope_value, median_abs_slope, mean_abs_slope) := slope in
  let '(max_vertical_step, median_vertical_step, mean_vertical_step) := step in
  let max_slope_value := nan_to_zero max_slope_value in
  let median_abs_slope := nan_to_zero median_abs_slope in
  let mean_abs_slope := nan_to_zero mean_abs_slope in
  let max_vertical_step := nan_to_zero max_vertical_step in
  let median_vertical_step := nan_to_zero median_vertical_step in
  let mean_vertical_step := nan_to_zero mean_vertical_step in
  let max_grade_percent := max_slope_value * 100 in
  let max_grade_angle := degrees (atan max_slope_value) in
  let median_grade_percent := median_abs_slope * 100 in
  let mean_grade_percent := mean_abs_slope * 100 in
  {| File_Path := file_path;
     Max_Slope_Ratio_m_m := max_slope_value;
     Median_Absolute_Slope_m_m := median_abs_slope;
     Mean_Absolute_Slope_m_m := mean_abs_slope;
     Max_Grade_Percent := max_grade_percent;
     Median_Grade_Percent := median_grade_percent;
     Mean_Grade_Percent := mean_grade_percent;
     Max_Grade_Angle_Degrees := max_grade_angle;
     Max_Vertical_Step_m := max_vertical_step;
     Median_Vertical_Step_m := median_vertical_step;
     Mean_Vertical_Step_m := mean_vertical_step |}.

(** Lines 129-141 *)
Definition make_output_lines (df df_cleaned : DataFrame) (results : Results)
    : OutputLines :=
  {| line_threshold := MIN_HORIZONTAL_STEP_M;
     line_filtered := (Z.of_nat (df_len df) - Z.of_nat (df_len df_cleaned))%Z;
     line_mean_grade := Mean_Grade_Percent results;
     line_median_grade := Median_Grade_Percent results;
     line_max_grade := Max_Grade_Percent results;
     line_mean_step := Mean_Vertical_Step_m results;
     line_median_step := Median_Vertical_Step_m results;
     line_max_step := Max_Vertical_Step_m results |}.

(** Lines 145-154: the optional report.  [if output_filename:] is false on
    [None] and on the empty string. *)
Definition export_report (env : Env) (output_filename : option string)
    (output_lines : OutputLines) (results : Results) : Prog unit :=
  match output_filename with
  | None => ret tt
  | Some EmptyString => ret tt
  | Some name =>
      let content := {| report_lines := output_lines; report_raw := results |} in
      try_except
        (lift (write_text env name content) ;;;
         emit (FileWritten name content) ;;;
         print (MsgExported name))
        (fun e => print (MsgWarningNotWritten name e))
  end.

Definition analyze_and_export_metrics `{Sorter} (env : Env)
    (file_path lon_col lat_col z_col id_col : string)
    (output_filename : option string) : Prog (option Results) :=
  print (MsgInitiating file_path) ;;;
  loaded <~
    try_except
      (df <~ lift (read_excel env file_path) ;; ret (Some df))
      (fun e =>
         match e with
         | FileNotFoundError => print (MsgErrorNotFound file_path) ;;; ret None
         | _ => print (MsgErrorLoad e) ;;; ret None
         end) ;;
  match loaded with
  | None => ret None
  | Some df =>
      let required_cols := [lon_col; lat_col; z_col; id_col] in
      if df_empty df || negb (forallb (has_column df) required_cols)
      then print (MsgErrorEmptyOrMissing required_cols) ;;; ret None
      else
        df <~ lift (step_columns df lon_col lat_col z_col id_col) ;;
        df_cleaned <~ lift (clean_steps df) ;;
        Absolute_Slope <~ lift (getitem df_cleaned "Absolute_Slope") ;;
        let slope := max_median_mean Absolute_Slope in
        dZ_m <~ lift (getitem df_cleaned "dZ_m") ;;
        let df_cleaned := setitem df_cleaned "dZ_m_abs" (series_abs dZ_m) in
        dZ_m_abs <~ lift (getitem df_cleaned "dZ_m_abs") ;;
        let step := max_median_mean dZ_m_abs in
        let results := compile_results file_path slope step in
        let output_lines := make_output_lines df df_cleaned results in
        print (MsgFinalMetrics output_lines) ;;;
        export_report env output_filename output_lines results ;;;
        ret (Some results)
  end.

(** The value [analyze_and_export_metrics] hands back when the table
    passed the checks of lines 48-52, without what it prints and
    writes: the columns of lines 56-74, then lines 76-125. *)
Definition aggregate_table (df : DataFrame) (file_path : string)
    : result Results :=
  df_cleaned <- clean_steps df ;;
  Absolute_Slope <- getitem df_cleaned "Absolute_Slope" ;;
  dZ_m <- getitem df_cleaned "dZ_m" ;;
  let df_cleaned := setitem df_cleaned "dZ_m_abs" (series_abs dZ_m) in
  dZ_m_abs <- getitem df_cleaned "dZ_m_abs" ;;
  Ok (compile_results file_path (max_median_mean Absolute_Slope)
        (max_median_mean dZ_m_abs)).

Definition metrics_of_table `{Sorter} (df : DataFrame)
    (file_path lon_col lat_col z_col id_col : string) : result Results :=
  df <- step_columns df lon_col lat_col z_col id_col ;;
  aggregate_table df file_path.

(** The rows a boolean mask keeps, on the values of one column. *)
Definition masked (mask : list bool) (s : Series) : Series :=
  map snd (filter fst (combine mask s)).

(** The labels the function assigns before it has read the last of the
    caller's columns. *)
Definition scratch_columns : list string :=
  ["prev_lat"; "prev_lon"; "lat_rad"; "lon_rad";
   "prev_lat_rad"; "prev_lon_rad"; "d_horizontal_m"]%string.

Definition is_scratch (col : string) : bool :=
  existsb (String.eqb col) scratch_columns.

(** The caller's longitude, latitude and elevation columns are not
    overwritten before they are read. *)
Definition columns_apart (lon_col lat_col z_col : string) : bool :=
  negb (is_scratch lon_col) && negb (is_scratch lat_col)
  && negb (is_scratch z_col).

(** The checks of lines 48-52 pass. *)
Definition table_accepted (df : DataFrame)
    (lon_col lat_col z_col id_col : string) : bool :=
  negb (df_empty df || negb (forallb (has_column df) [lon_col; lat_col; z_col; id_col])).

(** ** The steps, as the specification describes them

    One step per adjacent pair of the sorted sequence, by explicit
    pairwise iteration. *)

Fixpoint adjacent_pairs {A : Type} (l : list A) : list (A * A) :=
  match l with
  | [] => []
  | p :: l' =>
      match l' with
      | [] => []
      | q :: _ => (p, q) :: adjacent_pairs l'
      end
  end.

Record StepRecord : Type := mkStep {
  horizontal_distance_m : cell;
  vertical_delta_m : cell
}.

Definition step_between (lon_col lat_col z_col : string) (p q : Row)
    : StepRecord :=
  {| horizontal_distance_m :=
       haversine_distance
         (cell1 radians (p lat_col)) (cell1 radians (p lon_col))
         (cell1 radians (q lat_col)) (cell1 radians (q lon_col))
         earth_radius_m_default;
     vertical_delta_m := cell2 Rminus (q z_col) (p z_col) |}.

Definition steps_of (lon_col lat_col z_col : string) (sorted : list Row)
    : list StepRecord :=
  map (fun pq => step_between lon_col lat_col z_col (fst pq) (snd pq))
      (adjacent_pairs sorted).

(** The degenerate-step filter: a step survives when its horizontal
    distance is at least the threshold. *)
Definition survives (s : StepRecord) : bool :=
  cell_ge (horizontal_distance_m s) MIN_HORIZONTAL_STEP_M.

Definition surviving_steps (lon_col lat_col z_col : string)
    (sorted : list Row) : list StepRecord :=
  filter survives (steps_of lon_col lat_col z_col sorted).

Definition absolute_slope (s : StepRecord) : cell :=
  cell1 Rabs (cell2 Rdiv (vertical_delta_m s) (horizontal_distance_m s)).

Definition absolute_vertical_step (s : StepRecord) : cell :=
  cell1 Rabs (vertical_delta_m s).

(** The record over a given list of steps. *)
Definition metrics_over (file_path : string) (kept : list StepRecord)
    : Results :=
  compile_results file_path
    (max_median_mean (map absolute_slope kept))
    (max_median_mean (map absolute_vertical_step kept)).

(** The record of the degenerate case: every aggregate is 0.0. *)
Definition zero_results (file_path : string) : Results :=
  {| File_Path := file_path;
     Max_Slope_Ratio_m_m := 0;
     Median_Absolute_Slope_m_m := 0;
     Mean_Absolute_Slope_m_m := 0;
     Max_Grade_Percent := 0;
     Median_Grade_Percent := 0;
     Mean_Grade_Percent := 0;
     Max_Grade_Angle_Degrees := 0;
     Max_Vertical_Step_m := 0;
     Median_Vertical_Step_m := 0;
     Mean_Vertical_Step_m := 0 |}.

Definition nonneg (v : R) : Prop := 0 <= v.

(** The numeric fields of a record. *)
Definition numeric_fields (r : Results) : list R :=
  [Max_Slope_Ratio_m_m r; Median_Absolute_Slope_m_m r;
   Mean_Absolute_Slope_m_m r; Max_Grade_Percent r; Median_Grade_Percent r;
   Mean_Grade_Percent r; Max_Grade_Angle_Degrees r; Max_Vertical_Step_m r;
   Median_Vertical_Step_m r; Mean_Vertical_Step_m r].

(** ** A reordering that meets the contract of [sort_values]

    Insertion sort on the key. *)

Definition cell_leb (x y : cell) : bool :=
  match x, y with
  | Some a, Some b => if Rle_dec a b then true else false
  | _, None => true
  | None, Some _ => false
  end.

Fixpoint insert_by (key : Row -> cell) (r : Row) (l : list Row) : list Row :=
  match l with
  | [] => [r]
  | r' :: l' =>
      if cell_leb (key r) (key r') then r :: l else r' :: insert_by key r l'
  end.

Definition insertion_reorder (key : Row -> cell) (l : list Row) : list Row :=
  fold_right (insert_by key) [] l.

Definition stable_sorter : Sorter := {| reorder := insertion_reorder |}.

(** ** Sample tables *)

(** A row of a sheet with the default columns. *)
Definition point (id x y z : R) : Row :=
  fun c =>
    if String.eqb c "ID" then Some id
    else if String.eqb c "x" then Some x
    else if String.eqb c "y" then Some y
    else if String.eqb c "ZCOORD" then Some z
    else None.

Definition sheet_columns : list string := ["ID"; "x"; "y"; "ZCOORD"]%string.

Definition sheet (rs : list Row) : DataFrame :=
  {| columns := sheet_columns; rows := rs |}.

(** An environment with one readable spreadsheet, [track.xlsx], and a
    report file that can be written exactly when its name is
    [report.txt]. *)
Definition one_file (df : DataFrame) : Env :=
  {| read_excel := fun path =>
       if String.eqb path "track.xlsx" then Ok df else Raise FileNotFoundError;
     write_text := fun name _ =>
       if String.eqb name "report.txt" then Ok tt
       else Raise (OtherException "Permission denied") |}.

Definition p1 : Row := point 1 0 0 0.
Definition p2 : Row := point 2 (1 / 1000) 0 1.
Definition p3 : Row := point 3 (2 / 1000) 0 3.
Definition twin_a : Row := point 7 0 0 0.
Definition twin_b : Row := point 7 0 0 5.

(** ** Views used in the proofs *)

(** Every row of a sequence together with its predecessor. *)
Fixpoint with_prev_from (p : option Row) (l : list Row)
    : list (option Row * Row) :=
  match l with
  | [] => []
  | r :: l' => (p, r) :: with_prev_from (Some r) l'
  end.

Definition with_prev (l : list Row) : list (option Row * Row) :=
  with_prev_from None l.

(** A cell of the predecessor, NaN when there is none. *)
Definition prev_cell (f : Row -> cell) (pr : option Row * Row) : cell :=
  match fst pr with
  | Some p => f p
  | None => None
  end.

(** The step that ends at a row; the first row has no predecessor and
    its step is all NaN. *)
Definition step_into (lon_col lat_col z_col : string)
    (pr : option Row * Row) : StepRecord :=
  match fst pr with
  | Some p => step_between lon_col lat_col z_col p (snd pr)
  | None => {| horizontal_distance_m := None; vertical_delta_m := None |}
  end.

(** * Definitions for the further properties *)

From Stdlib Require Import ZArith Ascii.

(** ** Notions used by the further properties *)

(** A row whose longitude and latitude cells are both filled. *)
Definition located (lon_col lat_col : string) (r : Row) : bool :=
  match r lon_col, r lat_col with
  | Some _, Some _ => true
  | _, _ => false
  end.

(** The adjacent pairs both of whose rows are located. *)
Definition located_pairs (lon_col lat_col : string) (sorted : list Row)
    : list (Row * Row) :=
  filter (fun pq => located lon_col lat_col (fst pq)
                    && located lon_col lat_col (snd pq))
         (adjacent_pairs sorted).

(** A row of the sample sheet whose coordinate cells are blank. *)
Definition unlocated (id z : R) : Row :=
  fun c =>
    if String.eqb c "ID" then Some id
    else if String.eqb c "ZCOORD" then Some z
    else None.

(** * The callers of the metrics: [assembler.py], [terrain_identifier.py] *)

(** ** JSON values

    What [json.dumps] is given and what [json.loads] returns.  A number
    is a real as everywhere else; the members of an object keep their
    order, as a Python dict does. *)
#[local] Set Warnings "-register-all".
Inductive json : Type :=
| JNull
| JBool (b : bool)
| JNumber (x : R)
| JString (s : string)
| JArray (items : list json)
| JObject (members : list (string * json)).

(** [d.get(key)] on the members of an object. *)
Fixpoint dict_get (key : string) (members : list (string * json))
    : option json :=
  match members with
  | [] => None
  | (k, v) :: rest => if String.eqb k key then Some v else dict_get key rest
  end.

(** The member of an object value, if any. *)
Definition member (key : string) (v : json) : option json :=
  match v with
  | JObject members => dict_get key members
  | _ => None
  end.

(** The text [json.dumps(value, indent=...)] stands for; the rendering
    itself is not modelled. *)
Record JsonText : Type := mkJsonText {
  json_value : json;
  json_indent : option nat
}.

(** ** [get_terrain_classification] *)

(** One entry of the classifier's answer, documented as
    [{'label': 'marshy', 'score': 0.47}]; a key that is absent is
    [None]. *)
Record Item : Type := mkItem {
  item_label : option string;
  item_score : option R
}.

Inductive assembler_message : Type :=
| MsgStarting
| MsgAnalysisFailed
| MsgClassificationError (e : exn)
| MsgCompiled.

(** What the assembler and the functions it calls print and write. *)
Inductive out_event : Type :=
| FromAnalysis (e : event)
| ClassifierSaid (e : exn)
| Said (m : assembler_message).

(** Lines 10-16: the pipeline is built and run inside [try]; whatever it
    raises is printed and the answer is the empty list. *)
Definition get_terrain_classification
    (classifier : string -> result (list Item)) (image_path : string)
    : list Item * list out_event :=
  match classifier image_path with
  | Ok answer => (answer, [])
  | Raise e => ([], [ClassifierSaid e])
  end.

(** ** [combine_analysis_to_json] *)

(** [needle in hay] on two strings. *)
Fixpoint contains (needle hay : string) : bool :=
  if String.prefix needle hay then true
  else match hay with
       | EmptyString => false
       | String _ rest => contains needle rest
       end.

(** Line 44: the comprehension; [item['label']] and [item['score']]
    raise [KeyError] on an absent key. *)
Fixpoint label_and_score (results : list Item) : result (list (string * R)) :=
  match results with
  | [] => Ok []
  | item :: rest =>
      match item_label item with
      | None => Raise (KeyError "label")
      | Some label =>
          match item_score item with
          | None => Raise (KeyError "score")
          | Some score =>
              rest' <- label_and_score rest ;;
              Ok ((label, score) :: rest')
          end
      end
  end.

(** Line 54 *)
Definition top_terrain_of (terrain_classification_results : list (string * R))
    : string :=
  match terrain_classification_results with
  | (label, _) :: _ => label
  | [] => "unknown"
  end.

(** Lines 59-63 *)
Definition tire_tread_suggestion_for (top_terrain : string) : string :=
  if contains "marshy" top_terrain || contains "sandy" top_terrain
  then "Deep, Aggressive Tread (Low Ground Pressure)"
  else if contains "rocky" top_terrain
  then "Tough, Puncture-Resistant Tread (Durability)"
  else "All-Terrain Tread".

Definition classification_json (entry : string * R) : json :=
  JObject [("label", JString (fst entry)); ("score", JNumber (snd entry))]%string.

(** Lines 48-90: the derived parameters and the unified document. *)
Definition final_data (quantitative_metrics : Results)
    (terrain_classification_results : list (string * R)) : json :=
  let median_obstacle := Median_Vertical_Step_m quantitative_metrics in
  let max_obstacle := Max_Vertical_Step_m quantitative_metrics in
  let median_grade_percent := Median_Grade_Percent quantitative_metrics in
  let mean_grade_percent := Mean_Grade_Percent quantitative_metrics in
  let top_terrain := top_terrain_of terrain_classification_results in
  let robust_wheel_diameter := median_obstacle * 2 in
  let max_safety_wheel_diameter := max_obstacle * 2 in
  let tire_tread_suggestion := tire_tread_suggestion_for top_terrain in
  JObject [
    ("quantitative_metrics", JObject [
       ("mean_grade_percent", JNumber mean_grade_percent);
       ("median_grade_percent", JNumber median_grade_percent);
       ("max_grade_percent", JNumber (Max_Grade_Percent quantitative_metrics));
       ("max_grade_angle_degrees",
        JNumber (Max_Grade_Angle_Degrees quantitative_metrics));
       ("mean_absolute_slope_m_m",
        JNumber (Mean_Absolute_Slope_m_m quantitative_metrics));
       ("median_absolute_slope_m_m",
        JNumber (Median_Absolute_Slope_m_m quantitative_metrics));
       ("max_slope_ratio_m_m", JNumber (Max_Slope_Ratio_m_m quantitative_metrics));
       ("mean_vertical_step_m", JNumber (Mean_Vertical_Step_m quantitative_metrics));
       ("median_vertical_step_m", JNumber median_obstacle);
       ("max_vertical_step_m", JNumber max_obstacle)]);
    ("qualitative_metrics_full",
     JArray (map classification_json terrain_classification_results));
    ("design_recommendations", JObject [
       ("robust_wheel_diameter_m", JNumber robust_wheel_diameter);
       ("power_sizing_typical_grade_percent_mean", JNumber mean_grade_percent);
       ("power_sizing_robust_grade_percent_median", JNumber median_grade_percent);
       ("max_safety_check_grade_percent",
        JNumber (Max_Grade_Percent quantitative_metrics));
       ("max_safety_check_wheel_diameter_m", JNumber max_safety_wheel_diameter);
       ("primary_terrain_type", JString top_terrain);
       ("tire_tread_suggestion", JString tire_tread_suggestion)])
  ]%string.

(** Line 38: the document of a failed analysis. *)
Definition failure_data : json :=
  JObject [("analysis",
            JObject [("error", JString "Quantitative metrics failed")])]%string.

(** Lines 40-46: the classification, emptied by any exception. *)
Definition classify_terrain (classifier : string -> result (list Item))
    (image_path : string) : list (string * R) * list out_event :=
  let '(results, said) := get_terrain_classification classifier image_path in
  match label_and_score results with
  | Ok entries => (entries, said)
  | Raise e => ([], said ++ [Said (MsgClassificationError e)])
  end.

Definition combine_analysis_to_json `{Sorter} (env : Env)
    (classifier : string -> result (list Item))
    (db_path image_path : string) (pretty : bool)
    : result JsonText * list out_event :=
  let '(quantitative_metrics, printed) :=
    run (analyze_and_export_metrics env db_path lon_col_default
           lat_col_default z_col_default id_col_default None) in
  let tr := Said MsgStarting :: map FromAnalysis printed in
  match quantitative_metrics with
  | Raise e => (Raise e, tr)
  | Ok None =>
      (Ok {| json_value := failure_data; json_indent := None |},
       tr ++ [Said MsgAnalysisFailed])
  | Ok (Some quantitative_metrics) =>
      let '(terrain_classification_results, said) :=
        classify_terrain classifier image_path in
      (Ok {| json_value :=
               final_data quantitative_metrics terrain_classification_results;
             json_indent := if pretty then Some 4%nat else None |},
       tr ++ said ++ [Said MsgCompiled])
  end.

(** An event of the assembler's own, not one of the analysis. *)
Definition own_event (e : out_event) : bool :=
  match e with
  | FromAnalysis _ => false
  | _ => true
  end.

(** An entry that has both of its keys. *)
Definition well_formed (item : Item) : Prop :=
  item_label item <> None /\ item_score item <> None.

(** The member at the end of a path of keys. *)
Fixpoint member_at (path : list string) (v : json) : option json :=
  match path with
  | [] => Some v
  | key :: rest =>
      match member key v with
      | Some v' => member_at rest v'
      | None => None
      end
  end.

(** A classifier that answers with a fixed list. *)
Definition answers (items : list Item) : string -> result (list Item) :=
  fun _ => Ok items.

(** A classifier that fails. *)
Definition broken_classifier : string -> result (list Item) :=
  fun _ => Raise (OtherException "model not found").

(** [needle] occurs somewhere in [hay]. *)
Definition occurs_in (needle hay : string) : Prop :=
  exists pre post, hay = (pre ++ needle ++ post)%string.

(** * The validators of the model's answer: [parasynth.py], [aa.py]

    A text is a [string], so its characters are the code points below
    256. *)

(** ** The string methods the validators use *)

(** [c.isspace()] *)
Definition is_space (c : ascii) : bool :=
  let n := nat_of_ascii c in
  ((9 <=? n) && (n <=? 13) || (28 <=? n) && (n <=? 32)
   || (n =? 133) || (n =? 160))%nat.

(** [s.lstrip()] *)
Fixpoint lstrip (s : string) : string :=
  match s with
  | EmptyString => EmptyString
  | String c rest => if is_space c then lstrip rest else s
  end.

(** [s.rstrip()] *)
Fixpoint rstrip (s : string) : string :=
  match s with
  | EmptyString => EmptyString
  | String c rest =>
      match rstrip rest with
      | EmptyString => if is_space c then EmptyString else String c EmptyString
      | kept => String c kept
      end
  end.

(** [s.strip()] *)
Definition strip (s : string) : string := rstrip (lstrip s).

Fixpoint index_of (c : ascii) (s : string) : option nat :=
  match s with
  | EmptyString => None
  | String a rest =>
      if Ascii.eqb a c then Some 0%nat else option_map S (index_of c rest)
  end.

Fixpoint last_index_of (c : ascii) (s : string) : option nat :=
  match s with
  | EmptyString => None
  | String a rest =>
      match last_index_of c rest with
      | Some n => Some (S n)
      | None => if Ascii.eqb a c then Some 0%nat else None
      end
  end.

(** [s.find(c)] and [s.rfind(c)] for a one-character [c]: the index of
    the first and of the last occurrence, -1 when there is none. *)
Definition find (c : ascii) (s : string) : Z :=
  match index_of c s with
  | Some n => Z.of_nat n
  | None => (-1)%Z
  end.

Definition rfind (c : ascii) (s : string) : Z :=
  match last_index_of c s with
  | Some n => Z.of_nat n
  | None => (-1)%Z
  end.

(** [s[start:stop]] for [0 <= start]. *)
Definition slice (s : string) (start stop : Z) : string :=
  substring (Z.to_nat start) (Z.to_nat stop - Z.to_nat start) s.

(** ** Errors and outcomes *)

Inductive validation_error : Type :=
| NoJsonObject
| JSONDecodeError
| NotAnObject
| MissingKeys (missing : list string)
| DesignKeyNotText (key : string)
| SpacingNotNumber
| ZeroDivisionError.

(** All of them are [ValueError]s ([JSONDecodeError] is a subclass) but
    the last. *)
Definition is_value_error (e : validation_error) : bool :=
  match e with
  | ZeroDivisionError => false
  | _ => true
  end.

Inductive outcome (A : Type) : Type :=
| Returns (a : A)
| Raises (e : validation_error).

Arguments Returns {A} a.
Arguments Raises {A} e.

(** [json.loads]: the parser is the library's; [None] is its
    [JSONDecodeError].  Other ways the parser can fail (a
    [RecursionError] on a deeply nested text) are outside the model. *)
Definition Loader : Type := string -> option json.

(** ** The lines the two validators share *)

(** Lines 101-108 of [parasynth.py] (99-111 of [aa.py]): the text from the
    first opening brace to the last closing one. *)
Definition object_text (text : string) : outcome string :=
  let txt := strip text in
  let first := find "{" txt in
  let last := rfind "}" txt in
  if ((first =? -1) || (last =? -1) || (last <=? first))%Z
  then Raises NoJsonObject
  else Returns (slice txt first (last + 1)).

Definition required_keys : list string :=
  ["Tread_Spacing"; "Tire_Thickness"; "Tire_OD"; "Tread_Thickness";
   "reasoning"]%string.

(** [key in parsed] *)
Definition has_key (key : string) (members : list (string * json)) : bool :=
  existsb (fun kv => String.eqb (fst kv) key) members.

(** Lines 110-118 of [parasynth.py] (115-123 of [aa.py]): parse, demand an
    object, demand the required keys.  The missing keys form a Python set;
    they are listed here in the order of [required_keys]. *)
Definition parse_object (json_loads : Loader) (txt : string)
    : outcome (list (string * json)) :=
  match json_loads txt with
  | None => Raises JSONDecodeError
  | Some parsed =>
      match parsed with
      | JObject members =>
          let missing :=
            filter (fun key => negb (has_key key members)) required_keys in
          match missing with
          | [] => Returns members
          | _ :: _ => Raises (MissingKeys missing)
          end
      | _ => Raises NotAnObject
      end
  end.

Module Parasynth.

Definition design_keys : list string :=
  ["Tread_Spacing"; "Tire_Thickness"; "Tire_OD"; "Tread_Thickness"]%string.

(** [isinstance(value, str) and value.strip()] is truthy *)
Definition text_with_content (value : option json) : bool :=
  match value with
  | Some (JString s) =>
      match strip s with
      | EmptyString => false
      | String _ _ => true
      end
  | _ => false
  end.

(** Lines 122-125: the first design key whose value is not a non-blank
    string. *)
Fixpoint first_bad_key (keys : list string) (parsed : list (string * json))
    : option string :=
  match keys with
  | [] => None
  | key :: rest =>
      if text_with_content (dict_get key parsed)
      then first_bad_key rest parsed
      else Some key
  end.

Definition validate_and_parse_json (json_loads : Loader) (text : string)
    : outcome (list (string * json)) :=
  match object_text text with
  | Raises e => Raises e
  | Returns txt =>
      match parse_object json_loads txt with
      | Raises e => Raises e
      | Returns parsed =>
          match first_bad_key design_keys parsed with
          | Some key => Raises (DesignKeyNotText key)
          | None => Returns parsed
          end
      end
  end.

End Parasynth.

Module Aa.

(** [spacing is not None and not isinstance(spacing, (int, float))]; a
    Python [bool] is an [int]. *)
Definition not_a_number (spacing : option json) : bool :=
  match spacing with
  | None | Some JNull => false
  | Some (JNumber _) | Some (JBool _) => false
  | Some _ => true
  end.

(** [360 % spacing] raises on a zero divisor; [False] is 0. *)
Definition modulo_raises (spacing : option json) : bool :=
  match spacing with
  | Some (JNumber x) => if Req_dec_T x 0 then true else false
  | Some (JBool b) => negb b
  | _ => false
  end.

Definition validate_and_parse_json (json_loads : Loader) (text : string)
    : outcome (list (string * json)) :=
  match object_text text with
  | Raises e => Raises e
  | Returns txt =>
      match parse_object json_loads txt with
      | Raises e => Raises e
      | Returns parsed =>
          let spacing := dict_get "Tread_Spacing" parsed in
          if not_a_number spacing then Raises SpacingNotNumber
          else if modulo_raises spacing then Raises ZeroDivisionError
          else Returns parsed
      end
  end.

End Aa.

(** ** Notions for the properties of the validators *)

(** The character [c] occurs in [s]. *)
Fixpoint has_char (c : ascii) (s : string) : bool :=
  match s with
  | EmptyString => false
  | String a rest => Ascii.eqb a c || has_char c rest
  end.

(** A parser that knows one text. *)
Definition loads_only (known : string) (value : json) : Loader :=
  fun txt => if String.eqb txt known then Some value else None.

(** An answer of the model with strings for the design values. *)
Definition design_in_text : list (string * json) :=
  [("Tread_Spacing", JString "12 deg"); ("Tire_Thickness", JString "30 mm");
   ("Tire_OD", JString "600 mm"); ("Tread_Thickness", JString "8 mm");
   ("reasoning", JString "rocky ground")]%string.

(** An answer of the model with a number for the tread spacing. *)
Definition design_in_numbers (spacing : json) : list (string * json) :=
  [("Tread_Spacing", spacing); ("Tire_Thickness", JNumber 30);
   ("Tire_OD", JNumber 600); ("Tread_Thickness", JNumber 8);
   ("reasoning", JString "rocky ground")]%string.

(** * Proofs *)

(** ** The great-circle formula *)

Lemma arctan2_0_pos (x : R) : 0 < x -> arctan2 0 x = 0.
Proof.
  intros Hx. unfold arctan2. destruct (Rlt_dec 0 x) as [_|n]; [|contradiction].
  unfold Rdiv. rewrite Rmult_0_l. apply atan_0.
Qed.

Lemma atan_nonneg (x : R) : 0 <= x -> 0 <= atan x.
Proof.
  intros [Hx | <-].
  - left. rewrite <- atan_0. now apply atan_increasing.
  - rewrite atan_0. apply Rle_refl.
Qed.

Lemma arctan2_quadrant (y x : R) :
  0 <= y -> 0 <= x -> 0 <= arctan2 y x <= PI / 2.
Proof.
  intros Hy Hx. unfold arctan2. pose proof PI_RGT_0 as Hpi.
  destruct (Rlt_dec 0 x) as [Hpos | Hnpos].
  - split.
    + apply atan_nonneg. apply Rmult_le_pos; [assumption|].
      left. now apply Rinv_0_lt_compat.
    + left. pose proof (atan_bound (y / x)) as [_ Hub]. exact Hub.
  - destruct (Rlt_dec x 0) as [Hneg | _]; [lra|].
    destruct (Rlt_dec 0 y) as [_ | _]; [lra|].
    destruct (Rlt_dec y 0) as [Hyn | _]; lra.
Qed.

Lemma haversine_unfold (lat1 lon1 lat2 lon2 radius : R) :
  haversine_distance lat1 lon1 lat2 lon2 radius
  = radius * hav_c (hav_a lat1 lon1 lat2 lon2).
Proof. reflexivity. Qed.

Lemma haversine_coincident (lat lon radius : R) :
  haversine_distance lat lon lat lon radius = 0.
Proof.
  rewrite haversine_unfold. unfold hav_a, hav_c.
  replace ((lat - lat) / 2) with 0 by lra.
  replace ((lon - lon) / 2) with 0 by lra.
  rewrite sin_0.
  replace (0² + cos lat * cos lat * 0²) with 0 by (unfold Rsqr; ring).
  rewrite Rminus_0_r, sqrt_0, sqrt_1, arctan2_0_pos by lra. ring.
Qed.

Lemma cos_cos_product (s t : R) :
  cos (s + t) * cos (s - t) = (cos s)² - (sin t)².
Proof.
  rewrite cos_plus, cos_minus.
  pose proof (sin2_cos2 s) as Hs. pose proof (sin2_cos2 t) as Ht.
  unfold Rsqr in *. nra.
Qed.

Lemma hav_a_bounds (lat1 lon1 lat2 lon2 : R) :
  - (PI / 2) <= lat1 <= PI / 2 -> - (PI / 2) <= lat2 <= PI / 2 ->
  0 <= hav_a lat1 lon1 lat2 lon2 <= 1.
Proof.
  intros [H1l H1u] [H2l H2u]. unfold hav_a.
  pose proof (cos_ge_0 lat1 H1l H1u) as Hc1.
  pose proof (cos_ge_0 lat2 H2l H2u) as Hc2.
  pose proof (Rle_0_sqr (sin ((lat2 - lat1) / 2))) as Hs1.
  pose proof (Rle_0_sqr (sin ((lon2 - lon1) / 2))) as Hs2.
  assert (Hs2u : (sin ((lon2 - lon1) / 2))² <= 1).
  { pose proof (sin2_cos2 ((lon2 - lon1) / 2)) as E.
    pose proof (Rle_0_sqr (cos ((lon2 - lon1) / 2))). lra. }
  assert (Hprod : 0 <= cos lat1 * cos lat2) by now apply Rmult_le_pos.
  split; [nra|].
  pose proof (cos_cos_product ((lat2 + lat1) / 2) ((lat2 - lat1) / 2)) as E.
  replace ((lat2 + lat1) / 2 + (lat2 - lat1) / 2) with lat2 in E by lra.
  replace ((lat2 + lat1) / 2 - (lat2 - lat1) / 2) with lat1 in E by lra.
  pose proof (sin2_cos2 ((lat2 + lat1) / 2)) as E2.
  pose proof (Rle_0_sqr (sin ((lat2 + lat1) / 2))) as Hs3.
  nra.
Qed.

Lemma hav_c_bounds (a : R) : 0 <= a <= 1 -> 0 <= hav_c a <= PI.
Proof.
  intros [Ha0 Ha1]. unfold hav_c.
  pose proof (arctan2_quadrant (sqrt a) (sqrt (1 - a)) (sqrt_pos _) (sqrt_pos _)).
  lra.
Qed.

(** ** Series and rows *)

Lemma align2_length (f : cell -> cell -> cell) (s t : Series) :
  List.length s = List.length t -> List.length (align2 f s t) = List.length s.
Proof.
  revert t. induction s as [|x s IH]; intros [|y t] E; simpl in *; try discriminate.
  - reflexivity.
  - f_equal. apply IH. now injection E.
Qed.

Lemma align2_map {A : Type} (f : cell -> cell -> cell) (g h : A -> cell)
    (l : list A) :
  align2 f (map g l) (map h l) = map (fun x => f (g x) (h x)) l.
Proof. induction l as [|x l IH]; simpl; [reflexivity | now rewrite IH]. Qed.

Lemma shift1_length (s : Series) : List.length (shift1 s) = List.length s.
Proof.
  destruct s as [|x s]; [reflexivity|].
  unfold shift1. cbn [List.length]. f_equal.
  change (x :: s) with ([x] ++ s).
  revert x. induction s as [|y s IH]; intros x; [reflexivity|].
  simpl. f_equal. apply (IH y).
Qed.

Lemma col_view_length (rs : list Row) (c : string) :
  List.length (col_view rs c) = List.length rs.
Proof. apply length_map. Qed.

Lemma col_view_assign_same (rs : list Row) (c : string) (s : Series) :
  List.length s = List.length rs -> col_view (assign_rows rs c s) c = s.
Proof.
  revert s. induction rs as [|r rs IH]; intros [|x s] E; simpl in *;
    try discriminate; [reflexivity|].
  unfold set_cell at 1. rewrite String.eqb_refl. f_equal.
  apply IH. now injection E.
Qed.

Lemma col_view_assign_other (rs : list Row) (c c' : string) (s : Series) :
  String.eqb c' c = false -> col_view (assign_rows rs c s) c' = col_view rs c'.
Proof.
  intros E. revert s. induction rs as [|r rs IH]; intros s; simpl; [reflexivity|].
  unfold set_cell at 1. rewrite E. f_equal. apply IH.
Qed.

Lemma assign_rows_length (rs : list Row) (c : string) (s : Series) :
  List.length (assign_rows rs c s) = List.length rs.
Proof.
  revert s. induction rs as [|r rs IH]; intros s; simpl; [reflexivity|].
  f_equal. apply IH.
Qed.

Lemma col_view_select (rs : list Row) (c : string) (mask : list bool) :
  col_view (select_rows rs mask) c = masked mask (col_view rs c).
Proof.
  unfold masked.
  revert mask. induction rs as [|r rs IH]; intros [|b mask]; simpl; try reflexivity.
  destruct b; simpl; now rewrite IH.
Qed.

Lemma has_column_setitem (df : DataFrame) (c c' : string) (s : Series) :
  has_column (setitem df c s) c' = String.eqb c' c || has_column df c'.
Proof.
  unfold has_column at 1, setitem. cbn [columns].
  destruct (has_column df c) eqn:Hc.
  - fold (has_column df c').
    destruct (String.eqb c' c) eqn:E; [|reflexivity].
    apply String.eqb_eq in E. subst c'. now rewrite Hc.
  - rewrite existsb_app. fold (has_column df c'). simpl.
    rewrite orb_false_r. apply orb_comm.
Qed.

Lemma getitem_present (df : DataFrame) (c : string) :
  has_column df c = true -> getitem df c = Ok (col_view (rows df) c).
Proof. intros E. unfold getitem. now rewrite E. Qed.

Lemma getitem_ok (df : DataFrame) (c : string) (s : Series) :
  getitem df c = Ok s -> has_column df c = true /\ s = col_view (rows df) c.
Proof.
  unfold getitem. destruct (has_column df c); [|discriminate].
  intros E. injection E as <-. now split.
Qed.

(** ** Predecessors and adjacent pairs *)

Lemma map_snd_with_prev {B : Type} (f : Row -> B) (p : option Row) (l : list Row) :
  map (fun pr => f (snd pr)) (with_prev_from p l) = map f l.
Proof.
  revert p. induction l as [|r l IH]; intros p; simpl; [reflexivity|].
  now rewrite IH.
Qed.

Lemma shift_with_prev (f : Row -> cell) (p : option Row) (r : Row) (l : list Row) :
  prev_cell f (p, r) :: removelast (map f (r :: l))
  = map (prev_cell f) (with_prev_from p (r :: l)).
Proof.
  revert p r. induction l as [|r' l IH]; intros p r; [reflexivity|].
  change (map f (r :: r' :: l)) with (f r :: map f (r' :: l)).
  change (removelast (f r :: map f (r' :: l)))
    with (f r :: removelast (map f (r' :: l))).
  change (with_prev_from p (r :: r' :: l))
    with ((p, r) :: with_prev_from (Some r) (r' :: l)).
  cbn [map]. f_equal. apply (IH (Some r) r').
Qed.

Lemma shift1_col_view (rs : list Row) (c : string) :
  shift1 (col_view rs c) = map (prev_cell (fun r => r c)) (with_prev rs).
Proof.
  destruct rs as [|r rs]; [reflexivity|].
  unfold with_prev. rewrite <- shift_with_prev. reflexivity.
Qed.

Lemma col_view_with_prev (rs : list Row) (c : string) :
  col_view rs c = map (fun pr => snd pr c) (with_prev rs).
Proof. symmetry. exact (map_snd_with_prev (fun r => r c) None rs). Qed.

Lemma with_prev_pairs (p : option Row) (r : Row) (l : list Row) :
  with_prev_from p (r :: l)
  = (p, r) :: map (fun pq => (Some (fst pq), snd pq)) (adjacent_pairs (r :: l)).
Proof.
  revert p r. induction l as [|r' l IH]; intros p r; [reflexivity|].
  change (with_prev_from p (r :: r' :: l))
    with ((p, r) :: with_prev_from (Some r) (r' :: l)).
  rewrite IH. reflexivity.
Qed.

Lemma masked_map {A : Type} (b : A -> bool) (g : A -> cell) (l : list A) :
  masked (map b l) (map g l) = map g (filter b l).
Proof.
  unfold masked. induction l as [|x l IH]; simpl; [reflexivity|].
  destruct (b x); simpl; now rewrite IH.
Qed.

Lemma with_prev_length (p : option Row) (l : list Row) :
  List.length (with_prev_from p l) = List.length l.
Proof.
  revert p. induction l as [|r l IH]; intros p; simpl; [reflexivity|].
  now rewrite IH.
Qed.

(** ** Reading a column back after assignments *)

Lemma df_len_setitem (df : DataFrame) (c : string) (s : Series) :
  df_len (setitem df c s) = df_len df.
Proof. apply assign_rows_length. Qed.

Lemma getitem_setitem_same (df : DataFrame) (c : string) (s : Series) :
  List.length s = df_len df -> getitem (setitem df c s) c = Ok s.
Proof.
  intros E. rewrite getitem_present.
  - cbn [setitem rows]. now rewrite col_view_assign_same.
  - rewrite has_column_setitem, String.eqb_refl. reflexivity.
Qed.

Lemma getitem_setitem_other (df : DataFrame) (c c' : string) (s : Series) :
  String.eqb c' c = false -> getitem (setitem df c s) c' = getitem df c'.
Proof.
  intros E. unfold getitem. rewrite has_column_setitem, E. cbn [orb].
  cbn [setitem rows]. fold (col_view (assign_rows (rows df) c s) c').
  now rewrite col_view_assign_other.
Qed.

Lemma getitem_length (df : DataFrame) (c : string) (s : Series) :
  getitem df c = Ok s -> List.length s = df_len df.
Proof.
  intros E. apply getitem_ok in E as [_ ->]. apply col_view_length.
Qed.

Lemma np_radians_length (s : Series) :
  List.length (np_radians s) = List.length s.
Proof. apply length_map. Qed.

Lemma series_abs_length (s : Series) :
  List.length (series_abs s) = List.length s.
Proof. apply length_map. Qed.

Lemma haversine_series_length (a b c d : Series) (radius : R) :
  List.length b = List.length a -> List.length c = List.length a ->
  List.length d = List.length a ->
  List.length (haversine_distance a b c d radius) = List.length a.
Proof.
  intros Hb Hc Hd. unfold haversine_distance. cbn.
  repeat first
    [ rewrite length_map
    | rewrite align2_length
    | reflexivity
    | congruence ].
Qed.

Lemma columns_apart_neq (lon_col lat_col z_col c : string) :
  columns_apart lon_col lat_col z_col = true ->
  In c scratch_columns ->
  String.eqb lon_col c = false /\ String.eqb lat_col c = false
  /\ String.eqb z_col c = false.
Proof.
  unfold columns_apart, is_scratch. intros Hap Hin.
  apply andb_prop in Hap as [Hap Hz]. apply andb_prop in Hap as [Hlon Hlat].
  apply negb_true_iff in Hlon, Hlat, Hz.
  assert (K : forall col, existsb (String.eqb col) scratch_columns = false ->
                          String.eqb col c = false).
  { intros col Hcol. destruct (String.eqb col c) eqn:E; [|reflexivity].
    rewrite <- Hcol. symmetry. apply existsb_exists. exists c. now split. }
  repeat split; now apply K.
Qed.

(** ** The columns of lines 56-74 *)

Ltac series_len :=
  repeat first
    [ rewrite df_len_setitem
    | rewrite np_radians_length
    | rewrite shift1_length
    | rewrite col_view_length
    | rewrite haversine_series_length
    | rewrite align2_length
    | reflexivity ].

Lemma step_columns_ok `{Sorter} (df : DataFrame)
    (lon_col lat_col z_col id_col : string) :
  forallb (has_column df) [lon_col; lat_col; z_col; id_col] = true ->
  columns_apart lon_col lat_col z_col = true ->
  let sorted := reorder (fun r => r id_col) (rows df) in
  exists df',
    step_columns df lon_col lat_col z_col id_col = Ok df'
    /\ getitem df' "d_horizontal_m"
       = Ok (haversine_distance
               (np_radians (shift1 (col_view sorted lat_col)))
               (np_radians (shift1 (col_view sorted lon_col)))
               (np_radians (col_view sorted lat_col))
               (np_radians (col_view sorted lon_col))
               earth_radius_m_default)
    /\ getitem df' "dZ_m" = Ok (diff (col_view sorted z_col)).
Proof.
  intros Hcols Hap sorted. cbn [forallb] in Hcols.
  apply andb_prop in Hcols as [Hlon Hcols].
  apply andb_prop in Hcols as [Hlat Hcols].
  apply andb_prop in Hcols as [Hz Hcols].
  apply andb_prop in Hcols as [Hid _].
  assert (Hneq : forall c, In c scratch_columns ->
            String.eqb lon_col c = false /\ String.eqb lat_col c = false
            /\ String.eqb z_col c = false)
    by (intros c; now apply columns_apart_neq).
  destruct (Hneq "prev_lat"%string) as (N1 & N2 & N3); [cbn; tauto|].
  destruct (Hneq "prev_lon"%string) as (N4 & N5 & N6); [cbn; tauto|].
  destruct (Hneq "lat_rad"%string) as (N7 & N8 & N9); [cbn; tauto|].
  destruct (Hneq "lon_rad"%string) as (N10 & N11 & N12); [cbn; tauto|].
  destruct (Hneq "prev_lat_rad"%string) as (N13 & N14 & N15); [cbn; tauto|].
  destruct (Hneq "prev_lon_rad"%string) as (N16 & N17 & N18); [cbn; tauto|].
  destruct (Hneq "d_horizontal_m"%string) as (N19 & N20 & N21); [cbn; tauto|].
  clear Hneq.
  unfold step_columns, sort_values. rewrite Hid. cbn [rbind].
  unfold reset_index_drop. fold sorted.
  set (df0 := {| columns := columns df; rows := sorted |}).
  assert (L0 : df_len df0 = List.length sorted) by reflexivity.
  assert (Glat : getitem df0 lat_col = Ok (col_view sorted lat_col))
    by (now apply getitem_present).
  assert (Glon : getitem df0 lon_col = Ok (col_view sorted lon_col))
    by (now apply getitem_present).
  assert (Gz : getitem df0 z_col = Ok (col_view sorted z_col))
    by (now apply getitem_present).
  clearbody df0.
  rewrite Glat. cbn [rbind].
  rewrite (getitem_setitem_other _ _ lon_col) by assumption.
  rewrite Glon. cbn [rbind].
  rewrite !(getitem_setitem_other _ _ lat_col) by assumption.
  rewrite Glat. cbn [rbind].
  rewrite !(getitem_setitem_other _ _ lon_col) by assumption.
  rewrite Glon. cbn [rbind].
  rewrite !(getitem_setitem_other _ _ "prev_lat") by reflexivity.
  rewrite getitem_setitem_same by (series_len; congruence). cbn [rbind].
  rewrite !(getitem_setitem_other _ _ "prev_lon") by reflexivity.
  rewrite getitem_setitem_same by (series_len; congruence). cbn [rbind].
  rewrite !(getitem_setitem_other _ _ "prev_lat_rad") by reflexivity.
  rewrite getitem_setitem_same by (series_len; congruence). cbn [rbind].
  rewrite getitem_setitem_same by (series_len; congruence). cbn [rbind].
  rewrite !(getitem_setitem_other _ _ "lat_rad") by reflexivity.
  rewrite getitem_setitem_same by (series_len; congruence). cbn [rbind].
  rewrite !(getitem_setitem_other _ _ "lon_rad") by reflexivity.
  rewrite getitem_setitem_same by (series_len; congruence). cbn [rbind].
  rewrite !(getitem_setitem_other _ _ z_col) by assumption.
  rewrite Gz. cbn [rbind].
  eexists. split; [reflexivity|]. split.
  - rewrite (getitem_setitem_other _ _ "d_horizontal_m") by reflexivity.
    rewrite getitem_setitem_same; [reflexivity|].
    series_len; congruence.
  - rewrite getitem_setitem_same; [reflexivity|].
    unfold diff. cbn [op_sub Operand_Series]. series_len; congruence.
Qed.

(** ** Lines 76-125 on the two derived columns *)

Lemma getitem_select (df : DataFrame) (c : string) (s : Series)
    (mask : list bool) :
  getitem df c = Ok s -> getitem (select df mask) c = Ok (masked mask s).
Proof.
  intros E. apply getitem_ok in E as [Hc ->].
  rewrite getitem_present by exact Hc.
  cbn [select rows]. now rewrite col_view_select.
Qed.

Lemma aggregate_table_ok (df : DataFrame) (file_path : string) (D Z : Series) :
  getitem df "d_horizontal_m" = Ok D ->
  getitem df "dZ_m" = Ok Z ->
  let mask := series_ge D MIN_HORIZONTAL_STEP_M in
  aggregate_table df file_path
  = Ok (compile_results file_path
          (max_median_mean
             (series_abs (series_div (masked mask Z) (masked mask D))))
          (max_median_mean (series_abs (masked mask Z)))).
Proof.
  intros HD HZ mask. unfold aggregate_table, clean_steps.
  rewrite HD. cbn [rbind]. fold mask.
  pose proof (getitem_select df _ _ mask HD) as HD'.
  pose proof (getitem_select df _ _ mask HZ) as HZ'.
  pose proof (getitem_length _ _ _ HD') as LD.
  pose proof (getitem_length _ _ _ HZ') as LZ.
  rewrite HZ', HD'. cbn [rbind].
  assert (LS : List.length (series_abs (series_div (masked mask Z) (masked mask D)))
               = df_len (select df mask)).
  { rewrite series_abs_length. unfold series_div.
    rewrite align2_length; congruence. }
  rewrite getitem_setitem_same by exact LS. cbn [rbind].
  rewrite (getitem_setitem_other _ _ "dZ_m") by reflexivity.
  rewrite HZ'. cbn [rbind].
  rewrite getitem_setitem_same; [reflexivity|].
  rewrite series_abs_length, df_len_setitem. exact LZ.
Qed.

(** ** From the columns to the steps *)

Lemma haversine_series_map {A : Type} (a b c d : A -> cell) (l : list A)
    (radius : R) :
  haversine_distance (map a l) (map b l) (map c l) (map d l) radius
  = map (fun x => haversine_distance (a x) (b x) (c x) (d x) radius) l.
Proof.
  unfold haversine_distance.
  cbn [op_add op_sub op_mul op_div_by op_from op_scale op_square
       np_sin np_cos np_sqrt np_arctan2 Operand_Series].
  repeat first [rewrite align2_map | rewrite map_map].
  reflexivity.
Qed.

Lemma haversine_cell_some (a b c d radius : R) :
  haversine_distance (Some a) (Some b) (Some c) (Some d) radius
  = Some (haversine_distance a b c d radius).
Proof. reflexivity. Qed.

Lemma distance_column (lon_col lat_col z_col : string) (sorted : list Row) :
  haversine_distance
    (np_radians (shift1 (col_view sorted lat_col)))
    (np_radians (shift1 (col_view sorted lon_col)))
    (np_radians (col_view sorted lat_col))
    (np_radians (col_view sorted lon_col))
    earth_radius_m_default
  = map (fun pr => horizontal_distance_m (step_into lon_col lat_col z_col pr))
        (with_prev sorted).
Proof.
  rewrite !shift1_col_view, !(col_view_with_prev sorted).
  unfold np_radians. rewrite !map_map, haversine_series_map.
  apply map_ext. intros [[p|] q]; [reflexivity|].
  unfold haversine_distance. cbn.
  destruct (q lat_col), (q lon_col); reflexivity.
Qed.

Lemma delta_column (lon_col lat_col z_col : string) (sorted : list Row) :
  diff (col_view sorted z_col)
  = map (fun pr => vertical_delta_m (step_into lon_col lat_col z_col pr))
        (with_prev sorted).
Proof.
  unfold diff. rewrite shift1_col_view, (col_view_with_prev sorted).
  cbn [op_sub Operand_Series]. rewrite align2_map.
  apply map_ext. intros [[p|] q]; cbn; [reflexivity|].
  now destruct (q z_col).
Qed.

Lemma filter_map_commute {A B : Type} (p : B -> bool) (f : A -> B) (l : list A) :
  filter p (map f l) = map f (filter (fun x => p (f x)) l).
Proof.
  induction l as [|x l IH]; simpl; [reflexivity|].
  destruct (p (f x)); simpl; now rewrite IH.
Qed.

Lemma surviving_with_prev (lon_col lat_col z_col : string) (sorted : list Row) :
  map (step_into lon_col lat_col z_col)
      (filter (fun pr => survives (step_into lon_col lat_col z_col pr))
              (with_prev sorted))
  = surviving_steps lon_col lat_col z_col sorted.
Proof.
  rewrite <- filter_map_commute. unfold surviving_steps, steps_of.
  destruct sorted as [|r l]; [reflexivity|].
  unfold with_prev. rewrite with_prev_pairs.
  cbn [map]. rewrite map_map.
  cbn [filter step_into fst survives horizontal_distance_m cell_ge].
  reflexivity.
Qed.

Lemma metrics_of_table_steps `{Sorter} (df : DataFrame)
    (file_path lon_col lat_col z_col id_col : string) :
  forallb (has_column df) [lon_col; lat_col; z_col; id_col] = true ->
  columns_apart lon_col lat_col z_col = true ->
  metrics_of_table df file_path lon_col lat_col z_col id_col
  = Ok (metrics_over file_path
          (surviving_steps lon_col lat_col z_col
             (reorder (fun r => r id_col) (rows df)))).
Proof.
  intros Hcols Hap.
  destruct (step_columns_ok df lon_col lat_col z_col id_col Hcols Hap)
    as (df' & Hstep & HD & HZ).
  unfold metrics_of_table. rewrite Hstep. cbn [rbind].
  rewrite (distance_column lon_col lat_col z_col) in HD.
  rewrite (delta_column lon_col lat_col z_col) in HZ.
  rewrite (aggregate_table_ok df' file_path _ _ HD HZ).
  unfold series_ge. rewrite map_map, !masked_map.
  unfold series_div, series_abs. rewrite align2_map, !map_map.
  unfold metrics_over. rewrite <- surviving_with_prev, !map_map.
  reflexivity.
Qed.

(** ** What the function returns, apart from what it prints and writes *)

Lemma export_report_returns (env : Env) (output_filename : option string)
    (lines : OutputLines) (results : Results) (tr : list event) :
  fst (export_report env output_filename lines results tr) = Ok tt.
Proof.
  unfold export_report.
  destruct output_filename as [[|ch name]|]; try reflexivity.
  unfold try_except, bind, lift, emit, print, emit.
  destruct (write_text env _ _); reflexivity.
Qed.

Lemma analyze_returned `{Sorter} (env : Env)
    (file_path lon_col lat_col z_col id_col : string)
    (output_filename : option string) :
  returned (analyze_and_export_metrics env file_path lon_col lat_col z_col
              id_col output_filename)
  = match read_excel env file_path with
    | Raise _ => Ok None
    | Ok df =>
        if table_accepted df lon_col lat_col z_col id_col
        then r <- metrics_of_table df file_path lon_col lat_col z_col id_col ;;
             Ok (Some r)
        else Ok None
    end.
Proof.
  unfold returned, run, analyze_and_export_metrics, table_accepted.
  unfold bind at 1. unfold print at 1, emit at 1.
  unfold bind at 1. unfold try_except, bind at 1, lift at 1.
  destruct (read_excel env file_path) as [df|e].
  - unfold ret at 1.
    destruct (df_empty df || negb (forallb (has_column df) _)); [reflexivity|].
    cbn [negb]. unfold metrics_of_table, aggregate_table.
    unfold bind at 1, lift at 1.
    destruct (step_columns df lon_col lat_col z_col id_col) as [df1|e];
      [|reflexivity].
    cbn [rbind]. unfold bind at 1, lift at 1.
    destruct (clean_steps df1) as [dc|e]; [|reflexivity].
    cbn [rbind]. unfold bind at 1, lift at 1.
    destruct (getitem dc "Absolute_Slope") as [sl|e]; [|reflexivity].
    cbn [rbind]. unfold bind at 1, lift at 1.
    destruct (getitem dc "dZ_m") as [dz|e]; [|reflexivity].
    cbn [rbind]. unfold bind at 1, lift at 1.
    destruct (getitem (setitem dc "dZ_m_abs" (series_abs dz)) "dZ_m_abs")
      as [dza|e]; [|reflexivity].
    cbn [rbind]. unfold bind, print, emit, ret.
    match goal with
    | |- context [export_report ?e ?o ?l ?r ?t] =>
        pose proof (export_report_returns e o l r t) as E;
        destruct (export_report e o l r t) as [[[]|ex] tr']
    end; [reflexivity | discriminate E].
  - destruct e; reflexivity.
Qed.

(** ** Sorting *)

Lemma cell_le_antisym (x y : cell) : cell_le x y -> cell_le y x -> x = y.
Proof.
  destruct x as [a|], y as [b|]; simpl; intros H1 H2;
    try reflexivity; try contradiction.
  f_equal. now apply Rle_antisym.
Qed.

Lemma cell_le_trans (x y z : cell) : cell_le x y -> cell_le y z -> cell_le x z.
Proof.
  destruct x as [a|], y as [b|], z as [c|]; simpl; intros H1 H2;
    try exact I; try contradiction.
  now apply Rle_trans with b.
Qed.

Lemma cell_leb_true (x y : cell) : cell_leb x y = true -> cell_le x y.
Proof.
  destruct x as [a|], y as [b|]; simpl; try discriminate; try (intros _; exact I).
  destruct (Rle_dec a b); [intros _; assumption | discriminate].
Qed.

Lemma cell_leb_false (x y : cell) : cell_leb x y = false -> cell_le y x.
Proof.
  destruct x as [a|], y as [b|]; simpl; try discriminate; try (intros _; exact I).
  destruct (Rle_dec a b) as [|n]; [discriminate|]. intros _. lra.
Qed.

Section Insertion.

Variable key : Row -> cell.

Lemma insert_by_perm (r : Row) (l : list Row) :
  Permutation (insert_by key r l) (r :: l).
Proof.
  induction l as [|r' l IH]; simpl; [apply Permutation_refl|].
  destruct (cell_leb (key r) (key r')); [apply Permutation_refl|].
  apply perm_trans with (r' :: r :: l); [now apply perm_skip | apply perm_swap].
Qed.

Lemma insert_by_sorted (r : Row) (l : list Row) :
  StronglySorted (fun a b => cell_le (key a) (key b)) l ->
  StronglySorted (fun a b => cell_le (key a) (key b)) (insert_by key r l).
Proof.
  induction l as [|r' l IH]; intros Hs; simpl.
  - constructor; constructor.
  - inversion Hs as [|? ? Hl Hall]; subst.
    destruct (cell_leb (key r) (key r')) eqn:E.
    + apply cell_leb_true in E. constructor; [assumption|].
      constructor; [exact E|].
      eapply Forall_impl; [|exact Hall].
      intros x Hx. cbn beta in *. now apply cell_le_trans with (key r').
    + apply cell_leb_false in E. constructor; [now apply IH|].
      apply Forall_forall. intros x Hx.
      apply (Permutation_in _ (insert_by_perm r l)) in Hx.
      destruct Hx as [<-|Hx]; [exact E|].
      rewrite Forall_forall in Hall. now apply Hall.
Qed.

Lemma insertion_reorder_perm (l : list Row) :
  Permutation (insertion_reorder key l) l.
Proof.
  induction l as [|r l IH]; simpl; [constructor|].
  eapply perm_trans; [apply insert_by_perm|]. now apply perm_skip.
Qed.

Lemma insertion_reorder_sorted (l : list Row) :
  StronglySorted (fun a b => cell_le (key a) (key b)) (insertion_reorder key l).
Proof.
  induction l as [|r l IH]; simpl; [constructor|]. now apply insert_by_sorted.
Qed.

End Insertion.

(** The order in which two sorted arrangements of the same rows can
    differ is only that of rows the order does not separate. *)
Lemma sorted_perm_unique {A : Type} (le : A -> A -> Prop) (l1 l2 : list A) :
  (forall a b, In a l1 -> In b l1 -> le a b -> le b a -> a = b) ->
  StronglySorted le l1 -> StronglySorted le l2 -> Permutation l1 l2 ->
  l1 = l2.
Proof.
  revert l2. induction l1 as [|a l1 IH]; intros l2 Hanti S1 S2 P.
  - apply Permutation_nil in P. now subst.
  - destruct l2 as [|b l2].
    { apply Permutation_sym, Permutation_nil in P. discriminate. }
    inversion S1 as [|? ? S1' F1]; inversion S2 as [|? ? S2' F2]; subst.
    rewrite Forall_forall in F1, F2.
    assert (Hab : a = b).
    { assert (Ha : In a (b :: l2)) by (apply (Permutation_in _ P); now left).
      assert (Hb : In b (a :: l1))
        by (apply (Permutation_in _ (Permutation_sym P)); now left).
      destruct Ha as [<-|Ha]; [reflexivity|].
      destruct Hb as [->|Hb]; [reflexivity|].
      apply Hanti; [now left | now right | now apply F1 | now apply F2]. }
    subst b. f_equal. apply IH; try assumption.
    + intros x y Hx Hy. apply Hanti; now right.
    + now apply Permutation_cons_inv with a.
Qed.

Lemma nodup_key_inj (key : Row -> cell) (l : list Row) (a b : Row) :
  NoDup (map key l) -> In a l -> In b l -> key a = key b -> a = b.
Proof.
  induction l as [|r l IH]; intros Hnd Ha Hb E; [destruct Ha|].
  simpl in Hnd. inversion Hnd as [|? ? Hnotin Hnd']; subst.
  destruct Ha as [<-|Ha], Hb as [<-|Hb].
  - reflexivity.
  - exfalso. apply Hnotin. rewrite E. now apply in_map.
  - exfalso. apply Hnotin. rewrite <- E. now apply in_map.
  - now apply IH.
Qed.

(** With pairwise distinct keys the sorted arrangement does not depend on
    the order of the input, whatever [sort_values] does with ties. *)
Lemma reorder_distinct `{S : Sorter} (key : Row -> cell) (l1 l2 : list Row) :
  sort_contract S ->
  Permutation l1 l2 -> NoDup (map key l1) ->
  reorder key l1 = reorder key l2.
Proof.
  intros [reorder_perm reorder_sorted] P Hnd.
  apply sorted_perm_unique with (le := fun r r' => cell_le (key r) (key r')).
  - intros a b Ha Hb Hab Hba.
    apply (Permutation_in _ (reorder_perm key l1)) in Ha, Hb.
    apply (nodup_key_inj key l1); try assumption.
    now apply cell_le_antisym.
  - apply reorder_sorted.
  - apply reorder_sorted.
  - eapply perm_trans; [apply reorder_perm|].
    eapply perm_trans; [exact P|]. apply Permutation_sym, reorder_perm.
Qed.

Lemma stable_sorter_contract : sort_contract stable_sorter.
Proof.
  split; intros key l;
    [apply insertion_reorder_perm | apply insertion_reorder_sorted].
Qed.

(** ** The reductions on absolute values *)

Lemma dropna_abs_nonneg (s : Series) : Forall nonneg (dropna (series_abs s)).
Proof.
  induction s as [|[v|] s IH]; simpl; [constructor | | exact IH].
  constructor; [apply Rabs_pos | exact IH].
Qed.

Lemma fold_left_Rmax_ge (l : list R) (v : R) : v <= fold_left Rmax l v.
Proof.
  revert v. induction l as [|x l IH]; intros v; simpl; [apply Rle_refl|].
  apply Rle_trans with (Rmax v x); [apply Rmax_l | apply IH].
Qed.

Lemma series_max_nonneg (s : Series) :
  Forall nonneg (dropna s) -> 0 <= nan_to_zero (series_max s).
Proof.
  unfold series_max. intros Hall.
  destruct (dropna s) as [|v vs]; simpl; [apply Rle_refl|].
  inversion Hall as [|? ? Hv _]; subst.
  apply Rle_trans with v; [exact Hv | apply fold_left_Rmax_ge].
Qed.

Lemma sum_values_nonneg (l : list R) : Forall nonneg l -> 0 <= sum_values l.
Proof.
  induction 1 as [|x l Hx _ IH]; simpl; [apply Rle_refl|].
  unfold nonneg in Hx. lra.
Qed.

Lemma series_mean_nonneg (s : Series) :
  Forall nonneg (dropna s) -> 0 <= nan_to_zero (series_mean s).
Proof.
  unfold series_mean. intros Hall.
  destruct (dropna s) as [|v vs] eqn:E; simpl; [apply Rle_refl|].
  apply Rmult_le_pos; [now apply (sum_values_nonneg (v :: vs))|].
  left. apply Rinv_0_lt_compat.
  change (0 < INR (S (List.length vs))). apply lt_0_INR. lia.
Qed.

Lemma insert_sorted_in (x y : R) (l : list R) :
  In x (insert_sorted y l) -> x = y \/ In x l.
Proof.
  induction l as [|z l IH]; simpl.
  - intros [<-|[]]. now left.
  - destruct (Rle_dec y z); simpl.
    + intros [<-|[<-|H]]; auto.
    + intros [<-|H]; auto. destruct (IH H); auto.
Qed.

Lemma sorted_values_in (x : R) (l : list R) : In x (sorted_values l) -> In x l.
Proof.
  induction l as [|y l IH]; simpl; [tauto|].
  intros H. apply insert_sorted_in in H as [ -> |H]; auto.
Qed.

Lemma nth_sorted_nonneg (l : list R) (k : nat) :
  Forall nonneg l -> 0 <= nth k (sorted_values l) 0.
Proof.
  intros Hall. destruct (nth_in_or_default k (sorted_values l) 0) as [Hin| ->].
  - apply sorted_values_in in Hin. rewrite Forall_forall in Hall.
    now apply Hall.
  - apply Rle_refl.
Qed.

Lemma series_median_nonneg (s : Series) :
  Forall nonneg (dropna s) -> 0 <= nan_to_zero (series_median s).
Proof.
  unfold series_median. intros Hall.
  destruct (dropna s) as [|v vs] eqn:E; [apply Rle_refl|].
  cbn [nan_to_zero].
  pose proof (nth_sorted_nonneg (v :: vs)) as Hn.
  destruct (Nat.even _).
  - pose proof (Hn (List.length (v :: vs) / 2 - 1)%nat Hall).
    pose proof (Hn (List.length (v :: vs) / 2)%nat Hall). lra.
  - now apply Hn.
Qed.

Lemma degrees_atan_nonneg (x : R) : 0 <= x -> 0 <= degrees (atan x).
Proof.
  intros Hx. unfold degrees. apply Rmult_le_pos; [now apply atan_nonneg|].
  pose proof PI_RGT_0. left. apply Rdiv_lt_0_compat; lra.
Qed.

Lemma compile_results_nonneg (file_path : string) (X Y : Series) :
  Forall nonneg
    (numeric_fields
       (compile_results file_path (max_median_mean (series_abs X))
          (max_median_mean (series_abs Y)))).
Proof.
  pose proof (series_max_nonneg _ (dropna_abs_nonneg X)) as H1.
  pose proof (series_median_nonneg _ (dropna_abs_nonneg X)) as H2.
  pose proof (series_mean_nonneg _ (dropna_abs_nonneg X)) as H3.
  pose proof (series_max_nonneg _ (dropna_abs_nonneg Y)) as H4.
  pose proof (series_median_nonneg _ (dropna_abs_nonneg Y)) as H5.
  pose proof (series_mean_nonneg _ (dropna_abs_nonneg Y)) as H6.
  unfold compile_results, max_median_mean, numeric_fields.
  cbn [Max_Slope_Ratio_m_m Median_Absolute_Slope_m_m Mean_Absolute_Slope_m_m
       Max_Grade_Percent Median_Grade_Percent Mean_Grade_Percent
       Max_Grade_Angle_Degrees Max_Vertical_Step_m Median_Vertical_Step_m
       Mean_Vertical_Step_m].
  repeat (apply Forall_cons); try apply Forall_nil; unfold nonneg;
    try assumption; try lra.
  now apply degrees_atan_nonneg.
Qed.

Lemma aggregate_table_shape (df : DataFrame) (file_path : string) (r : Results) :
  aggregate_table df file_path = Ok r ->
  exists X Y,
    r = compile_results file_path (max_median_mean (series_abs X))
          (max_median_mean (series_abs Y)).
Proof.
  intros E.
  destruct (getitem df "d_horizontal_m") as [D|e] eqn:HD.
  - destruct (getitem df "dZ_m") as [Z|e] eqn:HZ.
    + rewrite (aggregate_table_ok df file_path D Z HD HZ) in E.
      injection E as <-. do 2 eexists. reflexivity.
    + exfalso. unfold aggregate_table, clean_steps in E.
      rewrite HD in E. cbn [rbind] in E.
      unfold getitem in HZ. unfold getitem at 1 in E.
      unfold has_column in *. cbn [select columns] in E.
      destruct (existsb _ (columns df)); discriminate.
  - unfold aggregate_table, clean_steps in E. rewrite HD in E. discriminate.
Qed.

Lemma metrics_over_nil (file_path : string) :
  metrics_over file_path [] = zero_results file_path.
Proof.
  unfold metrics_over, zero_results, compile_results, max_median_mean.
  cbn. unfold degrees. rewrite atan_0, !Rmult_0_l. reflexivity.
Qed.

(** ** The pandas operations on small inputs *)

Ltac decide_order :=
  repeat match goal with
         | |- context [Rle_dec ?a ?b] =>
             lazymatch a with context [Rle_dec] => fail | _ => idtac end;
             destruct (Rle_dec a b); try (exfalso; lra); cbn
         end.

Example shift1_sample :
  shift1 [Some 1; Some 2; Some 3] = [None; Some 1; Some 2].
Proof. reflexivity. Qed.

Example diff_sample :
  diff [Some 1; Some 4; None; Some 9] = [None; Some (4 - 1); None; None].
Proof. reflexivity. Qed.

Example mask_sample :
  series_ge [None; Some (1 / 200); Some (1 / 100); Some 5]
    MIN_HORIZONTAL_STEP_M
  = [false; false; true; true].
Proof.
  unfold series_ge, cell_ge, MIN_HORIZONTAL_STEP_M. cbn [map].
  decide_order. reflexivity.
Qed.

Example max_sample : series_max [Some 1; None; Some 3; Some 2] = Some 3.
Proof.
  unfold series_max. cbn. unfold Rmax. decide_order; f_equal; lra.
Qed.

Example mean_sample : series_mean [Some 1; None; Some 3] = Some 2.
Proof. unfold series_mean. cbn. f_equal. lra. Qed.

Example median_odd_sample :
  series_median [Some 3; None; Some 1; Some 2] = Some 2.
Proof. unfold series_median. cbn. decide_order. reflexivity. Qed.

Example median_even_sample :
  series_median [Some 4; Some 1] = Some ((1 + 4) / 2).
Proof. unfold series_median. cbn. decide_order. reflexivity. Qed.

Example all_nan_sample :
  max_median_mean [None; None] = (None, None, None).
Proof. reflexivity. Qed.

(** The scenario of a steady climb: three surviving steps of 2 m over
    10 m give a slope of 0.2 for the maximum, the median and the mean, a
    grade of 20 % and obstacle heights of 2 m. *)
Example steady_climb :
  let climb := {| horizontal_distance_m := Some 10; vertical_delta_m := Some 2 |} in
  metrics_over "track.xlsx" [climb; climb; climb]
  = {| File_Path := "track.xlsx";
       Max_Slope_Ratio_m_m := 1 / 5;
       Median_Absolute_Slope_m_m := 1 / 5;
       Mean_Absolute_Slope_m_m := 1 / 5;
       Max_Grade_Percent := 20;
       Median_Grade_Percent := 20;
       Mean_Grade_Percent := 20;
       Max_Grade_Angle_Degrees := degrees (atan (1 / 5));
       Max_Vertical_Step_m := 2;
       Median_Vertical_Step_m := 2;
       Mean_Vertical_Step_m := 2 |}.
Proof.
  cbn zeta. unfold metrics_over, absolute_slope, absolute_vertical_step.
  cbn [map vertical_delta_m horizontal_distance_m cell1 cell2 option_map].
  replace (Rabs (2 / 10)) with (1 / 5) by (rewrite Rabs_right; lra).
  replace (Rabs 2) with 2 by (rewrite Rabs_right; lra).
  unfold compile_results, max_median_mean, series_max, series_median,
    series_mean.
  cbn. unfold Rmax. decide_order. cbn [nan_to_zero].
  f_equal; lra.
Qed.

(** ** What the function prints and writes *)

Lemma export_report_run (env : Env) (name : string) (lines : OutputLines)
    (results : Results) (tr : list event) :
  name <> EmptyString ->
  let content := {| report_lines := lines; report_raw := results |} in
  export_report env (Some name) lines results tr
  = (Ok tt,
     tr ++ match write_text env name content with
           | Ok _ => [FileWritten name content; Printed (MsgExported name)]
           | Raise e => [Printed (MsgWarningNotWritten name e)]
           end).
Proof.
  intros Hname content. unfold export_report.
  destruct name as [|ch name]; [congruence|].
  fold content. unfold try_except, bind, lift, print, emit.
  destruct (write_text env _ content) as [[]|e]; [|reflexivity].
  rewrite <- app_assoc. reflexivity.
Qed.

Lemma analyze_returned_some `{Sorter} (env : Env)
    (file_path lon_col lat_col z_col id_col : string)
    (output_filename : option string) (r : Results) :
  returned (analyze_and_export_metrics env file_path lon_col lat_col z_col
              id_col output_filename) = Ok (Some r) ->
  exists df,
    read_excel env file_path = Ok df
    /\ table_accepted df lon_col lat_col z_col id_col = true
    /\ metrics_of_table df file_path lon_col lat_col z_col id_col = Ok r.
Proof.
  rewrite analyze_returned.
  destruct (read_excel env file_path) as [df|e]; [|discriminate].
  destruct (table_accepted df lon_col lat_col z_col id_col) eqn:Hacc;
    [|discriminate].
  destruct (metrics_of_table df file_path lon_col lat_col z_col id_col)
    as [r'|e] eqn:Hmet; [|discriminate].
  cbn [rbind]. intros E. injection E as <-. now exists df.
Qed.

Lemma analyze_trace `{Sorter} (env : Env)
    (file_path lon_col lat_col z_col id_col : string)
    (output_filename : option string) (r : Results) :
  returned (analyze_and_export_metrics env file_path lon_col lat_col z_col
              id_col output_filename) = Ok (Some r) ->
  exists lines,
    trace (analyze_and_export_metrics env file_path lon_col lat_col z_col
             id_col output_filename)
    = snd (export_report env output_filename lines r
             [Printed (MsgInitiating file_path); Printed (MsgFinalMetrics lines)]).
Proof.
  intros Hret. apply analyze_returned_some in Hret as (df & Hread & Hacc & Hmet).
  unfold trace, run, analyze_and_export_metrics.
  unfold table_accepted in Hacc. apply negb_true_iff in Hacc.
  unfold bind at 1. unfold print at 1, emit at 1.
  unfold bind at 1. unfold try_except, bind at 1, lift at 1.
  rewrite Hread. unfold ret at 1. rewrite Hacc.
  unfold metrics_of_table, aggregate_table in Hmet.
  unfold bind at 1, lift at 1.
  destruct (step_columns df lon_col lat_col z_col id_col) as [df1|e];
    [|discriminate].
  cbn [rbind] in Hmet. unfold bind at 1, lift at 1.
  destruct (clean_steps df1) as [dc|e]; [|discriminate].
  cbn [rbind] in Hmet. unfold bind at 1, lift at 1.
  destruct (getitem dc "Absolute_Slope") as [sl|e]; [|discriminate].
  cbn [rbind] in Hmet. unfold bind at 1, lift at 1.
  destruct (getitem dc "dZ_m") as [dz|e]; [|discriminate].
  cbn [rbind] in Hmet. unfold bind at 1, lift at 1.
  destruct (getitem (setitem dc "dZ_m_abs" (series_abs dz)) "dZ_m_abs")
    as [dza|e]; [|discriminate].
  cbn [rbind] in Hmet.
  assert (Hr : compile_results file_path (max_median_mean sl)
                 (max_median_mean dza) = r) by congruence.
  rewrite Hr.
  unfold bind, print, emit, ret. cbn [app].
  match goal with
  | |- context [export_report ?e ?o ?l ?r ?t] =>
      exists l; pose proof (export_report_returns e o l r t) as E;
      destruct (export_report e o l r t) as [[[]|ex] tr']
  end; [reflexivity | discriminate E].
Qed.

(** ** The record on an accepted table *)

Lemma table_accepted_columns (df : DataFrame)
    (lon_col lat_col z_col id_col : string) :
  table_accepted df lon_col lat_col z_col id_col = true ->
  df_empty df = false
  /\ forallb (has_column df) [lon_col; lat_col; z_col; id_col] = true.
Proof.
  unfold table_accepted. intros E. apply negb_true_iff, orb_false_iff in E.
  destruct E as [E1 E2]. split; [exact E1|]. now apply negb_false_iff.
Qed.

Lemma analyze_on_steps `{Sorter} (env : Env)
    (file_path lon_col lat_col z_col id_col : string)
    (output_filename : option string) (df : DataFrame) :
  read_excel env file_path = Ok df ->
  table_accepted df lon_col lat_col z_col id_col = true ->
  columns_apart lon_col lat_col z_col = true ->
  returned (analyze_and_export_metrics env file_path lon_col lat_col z_col
              id_col output_filename)
  = Ok (Some (metrics_over file_path
                (surviving_steps lon_col lat_col z_col
                   (reorder (fun r => r id_col) (rows df))))).
Proof.
  intros Hread Hacc Hap. rewrite analyze_returned, Hread, Hacc.
  apply table_accepted_columns in Hacc as [_ Hcols].
  now rewrite metrics_of_table_steps.
Qed.

Lemma adjacent_pairs_length {A : Type} (l : list A) :
  List.length (adjacent_pairs l) = Nat.pred (List.length l).
Proof.
  induction l as [|a [|b l] IH]; try reflexivity.
  change (adjacent_pairs (a :: b :: l)) with ((a, b) :: adjacent_pairs (b :: l)).
  cbn [List.length Nat.pred] in *. now rewrite IH.
Qed.



(** C2 (as amended).  On a table that passes the checks, so with at least
    one row, an empty set of surviving steps (a single row, or every step
    failing the 0.01 m threshold) gives a record, not the failure signal,
    and all its aggregates are 0. *)
Theorem degenerate_table_zero `{S : Sorter} (env : Env)
    (file_path lon_col lat_col z_col id_col : string)
    (output_filename : option string) (df : DataFrame) :
  sort_contract S ->
  read_excel env file_path = Ok df ->
  table_accepted df lon_col lat_col z_col id_col = true ->
  columns_apart lon_col lat_col z_col = true ->
  (df_len df < 2)%nat
  \/ Forall (fun s => survives s = false)
       (steps_of lon_col lat_col z_col (reorder (fun r => r id_col) (rows df))) ->
  returned (analyze_and_export_metrics env file_path lon_col lat_col z_col
              id_col output_filename)
  = Ok (Some (zero_results file_path)).
Proof.
  intros [reorder_perm _] Hread Hacc Hap Hdeg.
  rewrite (analyze_on_steps env _ _ _ _ _ _ df Hread Hacc Hap).
  do 2 f_equal. rewrite <- metrics_over_nil. f_equal.
  unfold surviving_steps. destruct Hdeg as [Hlen | Hall].
  - assert (E : steps_of lon_col lat_col z_col
                  (reorder (fun r => r id_col) (rows df)) = []).
    { apply length_zero_iff_nil. unfold steps_of.
      rewrite length_map, adjacent_pairs_length.
      rewrite (Permutation_length (reorder_perm _ (rows df))).
      unfold df_len in Hlen. lia. }
    now rewrite E.
  - induction Hall as [|s l Hs _ IH]; [reflexivity|].
    cbn [filter]. now rewrite Hs.
Qed.

Lemma degenerate_table_zero_witness :
  returned (@analyze_and_export_metrics stable_sorter
              (one_file (sheet [p1])) "track.xlsx"
              lon_col_default lat_col_default z_col_default id_col_default None)
  = Ok (Some (zero_results "track.xlsx"))
  /\ returned (@analyze_and_export_metrics stable_sorter
                 (one_file (sheet [twin_a; twin_b])) "track.xlsx"
                 lon_col_default lat_col_default z_col_default id_col_default
                 None)
     = Ok (Some (zero_results "track.xlsx")).
Proof.
  split.
  - apply (@degenerate_table_zero stable_sorter (one_file (sheet [p1]))
             "track.xlsx" lon_col_default lat_col_default z_col_default
             id_col_default None (sheet [p1]));
      try reflexivity.
    + apply stable_sorter_contract.
    + left. cbn. lia.
  - apply (@degenerate_table_zero stable_sorter
             (one_file (sheet [twin_a; twin_b])) "track.xlsx"
             lon_col_default lat_col_default z_col_default id_col_default
             None (sheet [twin_a; twin_b]));
      try reflexivity.
    + apply stable_sorter_contract.
    + right. cbn [rows sheet reorder stable_sorter].
      assert (E : insertion_reorder (fun r => r id_col_default) [twin_a; twin_b]
                  = [twin_a; twin_b]).
      { cbn. destruct (Rle_dec 7 7) as [_|n]; [reflexivity | exfalso; lra]. }
      rewrite E. constructor; [|constructor].
      cbn [steps_of adjacent_pairs map fst snd].
      unfold survives, step_between. cbn [horizontal_distance_m].
      change (twin_a lat_col_default) with (Some 0).
      change (twin_a lon_col_default) with (Some 0).
      change (twin_b lat_col_default) with (Some 0).
      change (twin_b lon_col_default) with (Some 0).
      cbn [cell1 option_map]. rewrite haversine_cell_some.
      rewrite haversine_coincident. unfold cell_ge, MIN_HORIZONTAL_STEP_M.
      destruct (Rle_dec (1 / 100) 0) as [F|_]; [exfalso; lra | reflexivity].
Defined.

(** C2, as stated, fails on the table with no rows: fewer than two rows
    are loaded and no step survives, yet the function returns the failure
    signal. *)
Lemma empty_table_is_failure :
  (df_len (sheet []) < 2)%nat
  /\ surviving_steps lon_col_default lat_col_default z_col_default
       (insertion_reorder (fun r => r id_col_default) (rows (sheet []))) = []
  /\ returned (@analyze_and_export_metrics stable_sorter
                 (one_file (sheet [])) "track.xlsx"
                 lon_col_default lat_col_default z_col_default id_col_default
                 None)
     = Ok None.
Proof.
  split; [cbn; lia|]. split; [reflexivity|].
  rewrite analyze_returned. reflexivity.
Qed.

(** C3.  On two points given in radians, [haversine_distance] with the
    default radius returns [R * c] for [R = 6371000], with
    [a = sin²(Δlat/2) + cos lat1 · cos lat2 · sin²(Δlon/2)] and
    [c = 2 · atan2(√a, √(1 − a))]; on two identical points [a = 0],
    [c = 0] and the distance is 0. *)
Theorem haversine_formula (lat1 lon1 lat2 lon2 : R) :
  haversine_distance lat1 lon1 lat2 lon2 earth_radius_m_default
  = 6371000 * hav_c (hav_a lat1 lon1 lat2 lon2)
  /\ hav_a lat1 lon1 lat2 lon2
     = (sin ((lat2 - lat1) / 2))²
       + cos lat1 * cos lat2 * (sin ((lon2 - lon1) / 2))²
  /\ (forall a, hav_c a = 2 * arctan2 (sqrt a) (sqrt (1 - a)))
  /\ hav_a lat1 lon1 lat1 lon1 = 0
  /\ hav_c 0 = 0
  /\ haversine_distance lat1 lon1 lat1 lon1 earth_radius_m_default = 0.
Proof.
  assert (Ha : hav_a lat1 lon1 lat1 lon1 = 0).
  { unfold hav_a. replace ((lat1 - lat1) / 2) with 0 by lra.
    replace ((lon1 - lon1) / 2) with 0 by lra.
    rewrite sin_0. unfold Rsqr. ring. }
  assert (Hc : hav_c 0 = 0).
  { unfold hav_c. rewrite Rminus_0_r, sqrt_0, sqrt_1.
    rewrite arctan2_0_pos by lra. ring. }
  repeat split; try reflexivity; try assumption.
  apply haversine_coincident.
Qed.

(** C9.  [haversine_distance] is symmetric in its two points. *)
Theorem haversine_symmetric (lat1 lon1 lat2 lon2 radius : R) :
  haversine_distance lat1 lon1 lat2 lon2 radius
  = haversine_distance lat2 lon2 lat1 lon1 radius.
Proof.
  rewrite !haversine_unfold. f_equal. f_equal. unfold hav_a.
  replace ((lat1 - lat2) / 2) with (- ((lat2 - lat1) / 2)) by lra.
  replace ((lon1 - lon2) / 2) with (- ((lon2 - lon1) / 2)) by lra.
  rewrite !sin_neg, <- !Rsqr_neg. ring.
Qed.

(** The formula in exact arithmetic: for latitudes in [−π/2, π/2] and any
    longitudes the intermediate [a] lies in [0, 1], both square roots are
    taken of non-negative numbers, and the distance lies between 0 and
    π · 6371000. *)
Lemma exact_haversine_range (lat1 lon1 lat2 lon2 : R) :
  - (PI / 2) <= lat1 <= PI / 2 ->
  - (PI / 2) <= lat2 <= PI / 2 ->
  let a := hav_a lat1 lon1 lat2 lon2 in
  0 <= a <= 1
  /\ 0 <= 1 - a
  /\ 0 <= haversine_distance lat1 lon1 lat2 lon2 earth_radius_m_default
       <= PI * 6371000.
Proof.
  intros H1 H2 a.
  pose proof (hav_a_bounds lat1 lon1 lat2 lon2 H1 H2) as Ha. fold a in Ha.
  pose proof (hav_c_bounds a Ha) as Hc.
  split; [exact Ha|]. split; [lra|].
  rewrite haversine_unfold. fold a. unfold earth_radius_m_default. nra.
Qed.

(** The upper bound is reached by two antipodal points of the equator. *)
Lemma antipodal_distance :
  haversine_distance 0 0 0 PI earth_radius_m_default = PI * 6371000.
Proof.
  rewrite haversine_unfold. unfold hav_a, hav_c, earth_radius_m_default.
  replace ((0 - 0) / 2) with 0 by lra. replace ((PI - 0) / 2) with (PI / 2) by lra.
  rewrite sin_0, cos_0, sin_PI2.
  replace (0² + 1 * 1 * 1²) with 1 by (unfold Rsqr; ring).
  replace (1 - 1) with 0 by ring. rewrite sqrt_0, sqrt_1.
  unfold arctan2.
  destruct (Rlt_dec 0 0) as [F|_]; [lra|].
  destruct (Rlt_dec 0 1) as [_|F]; [|lra].
  lra.
Qed.

(** ** The formula in binary64 *)

Section NearAntipodal.
Import PrimFloat.
#[local] Open Scope float_scope.

(** C6.  On binary64 values the bounds fail.  Take the points at latitude
    -0.08 and 0.08 degrees, longitude 0 and 180 degrees, in radians as
    [np.radians] gives them (both latitudes well within [−π/2, π/2]).
    With the correctly rounded sine and cosine at the three arguments
    reached, the intermediate [a] is the float next above 1, [1 - a] is
    negative, its square root is NaN, and, the arc tangent of a NaN being
    NaN, so is the distance returned. *)
Theorem near_antipodal_distance_is_nan (m : Binary64.Libm) :
  let lat := 0x1.6e05a695f8191p-10 in    (* 0.0013962634015954637 *)
  let lon := 0x1.921fb54442d18p+1 in     (* 3.141592653589793 *)
  Binary64.libm_sin m lat = 0x1.6e059ecaa87dcp-10 ->
  Binary64.libm_cos m (- lat) = 0x1.ffffdf4abdd1ep-1 ->
  Binary64.libm_cos m lat = 0x1.ffffdf4abdd1ep-1 ->
  Binary64.libm_sin m (lon / 2) = 1 ->
  (forall y, Binary64.libm_arctan2 m y nan = nan) ->
  let a := Binary64.hav_a m (- lat) 0 lat lon in
  (abs lat <? lon / 2) = true
  /\ a = 0x1.0000000000001p+0
  /\ (1 <? a) = true
  /\ (1 - a <? 0) = true
  /\ sqrt (1 - a) = nan
  /\ Binary64.haversine_distance m (- lat) 0 lat lon
       Binary64.earth_radius_m_default = nan.
Proof.
  intros lat lon Hsin Hcos1 Hcos2 Hsin2 Hnan a.
  assert (Hd1 : (lat - - lat) / 2 = lat) by reflexivity.
  assert (Hd2 : (lon - 0) / 2 = lon / 2) by reflexivity.
  assert (Ha : a = 0x1.0000000000001p+0).
  { unfold a, Binary64.hav_a. cbv zeta. rewrite Hd1, Hd2.
    rewrite Hsin, Hcos1, Hcos2, Hsin2. reflexivity. }
  split; [reflexivity|]. split; [exact Ha|].
  rewrite Ha. split; [reflexivity|]. split; [reflexivity|].
  split; [reflexivity|].
  unfold Binary64.haversine_distance. cbv zeta. rewrite Hd1, Hd2.
  rewrite Hsin, Hcos1, Hcos2, Hsin2.
  replace (sqrt (1 - (0x1.6e059ecaa87dcp-10 * 0x1.6e059ecaa87dcp-10
                      + 0x1.ffffdf4abdd1ep-1 * 0x1.ffffdf4abdd1ep-1
                        * (1 * 1))))
    with nan by reflexivity.
  rewrite Hnan. reflexivity.
Qed.

Lemma near_antipodal_distance_is_nan_witness :
  Binary64.haversine_distance Binary64.near_antipodal_table
    (- 0x1.6e05a695f8191p-10) 0 0x1.6e05a695f8191p-10 0x1.921fb54442d18p+1
    Binary64.earth_radius_m_default
  = nan.
Proof.
  apply (near_antipodal_distance_is_nan Binary64.near_antipodal_table);
    reflexivity.
Defined.

End NearAntipodal.

Lemma returned_none_on_rejected `{Sorter} (env : Env)
    (file_path lon_col lat_col z_col id_col : string)
    (output_filename : option string) (df : DataFrame) :
  read_excel env file_path = Ok df ->
  table_accepted df lon_col lat_col z_col id_col = false ->
  returned (analyze_and_export_metrics env file_path lon_col lat_col z_col
              id_col output_filename) = Ok None.
Proof. intros Hread Hrej. now rewrite analyze_returned, Hread, Hrej. Qed.

(** C4.  When the spreadsheet cannot be loaded (it is missing, or
    [read_excel] raises anything else), when the table is empty, or when
    one of the four required columns is absent, the function returns the
    failure signal [None]; it does not raise. *)
Theorem load_failure_returns_none `{Sorter} (env : Env)
    (file_path lon_col lat_col z_col id_col : string)
    (output_filename : option string) :
  (exists e, read_excel env file_path = Raise e)
  \/ (exists df,
        read_excel env file_path = Ok df
        /\ (df_empty df = true
            \/ exists col, In col [lon_col; lat_col; z_col; id_col]
                           /\ has_column df col = false)) ->
  returned (analyze_and_export_metrics env file_path lon_col lat_col z_col
              id_col output_filename) = Ok None.
Proof.
  intros [[e He] | (df & Hread & Hbad)].
  - now rewrite analyze_returned, He.
  - apply returned_none_on_rejected with df; [exact Hread|].
    unfold table_accepted. apply negb_false_iff, orb_true_iff.
    destruct Hbad as [Hemp | (col & Hin & Hcol)]; [now left | right].
    apply negb_true_iff.
    destruct (forallb (has_column df) _) eqn:E; [|reflexivity].
    rewrite forallb_forall in E. rewrite (E col Hin) in Hcol. discriminate.
Qed.

Lemma load_failure_returns_none_witness :
  returned (@analyze_and_export_metrics stable_sorter
              (one_file (sheet [p1; p2])) "absent.xlsx"
              lon_col_default lat_col_default z_col_default id_col_default
              (Some "report.txt"%string))
  = Ok None
  /\ returned (@analyze_and_export_metrics stable_sorter
                 (one_file (sheet [p1; p2])) "track.xlsx"
                 lon_col_default lat_col_default "elevation" id_col_default
                 None)
     = Ok None.
Proof.
  split.
  - apply (@load_failure_returns_none stable_sorter). left.
    exists FileNotFoundError. reflexivity.
  - apply (@load_failure_returns_none stable_sorter). right.
    exists (sheet [p1; p2]). split; [reflexivity|]. right.
    exists "elevation"%string. split; [cbn; tauto | reflexivity].
Defined.

(** C5.  Two tables with the same columns whose rows are a permutation of
    each other, with pairwise distinct ids, give the same result: the
    rows are sorted by id first, and with distinct ids the sorted
    sequence is the same. *)
Theorem row_order_irrelevant `{S : Sorter} (env1 env2 : Env)
    (file_path lon_col lat_col z_col id_col : string)
    (output_filename1 output_filename2 : option string)
    (df1 df2 : DataFrame) :
  sort_contract S ->
  read_excel env1 file_path = Ok df1 ->
  read_excel env2 file_path = Ok df2 ->
  columns df1 = columns df2 ->
  Permutation (rows df1) (rows df2) ->
  NoDup (col_view (rows df1) id_col) ->
  returned (analyze_and_export_metrics env1 file_path lon_col lat_col z_col
              id_col output_filename1)
  = returned (analyze_and_export_metrics env2 file_path lon_col lat_col z_col
                id_col output_filename2).
Proof.
  intros Hsc H1 H2 Hcols Hperm Hnd.
  rewrite !analyze_returned, H1, H2.
  assert (Hhas : forall c, has_column df1 c = has_column df2 c)
    by (intros c; unfold has_column; now rewrite Hcols).
  assert (Hemp : df_empty df1 = df_empty df2).
  { unfold df_empty. rewrite Hcols.
    destruct (columns df2) as [|c0 cs]; [reflexivity|].
    destruct (rows df1) as [|r rs], (rows df2) as [|r' rs']; try reflexivity.
    - apply Permutation_nil in Hperm. discriminate.
    - apply Permutation_sym, Permutation_nil in Hperm. discriminate. }
  assert (Hacc : table_accepted df1 lon_col lat_col z_col id_col
                 = table_accepted df2 lon_col lat_col z_col id_col).
  { unfold table_accepted. rewrite Hemp. cbn [forallb]. now rewrite !Hhas. }
  rewrite Hacc.
  destruct (table_accepted df2 lon_col lat_col z_col id_col); [|reflexivity].
  assert (Hsort : sort_values df1 id_col = sort_values df2 id_col).
  { unfold sort_values. rewrite Hhas, Hcols.
    now rewrite (reorder_distinct (fun r => r id_col) _ _ Hsc Hperm Hnd). }
  unfold metrics_of_table, step_columns. now rewrite Hsort.
Qed.

Lemma row_order_irrelevant_witness :
  returned (@analyze_and_export_metrics stable_sorter
              (one_file (sheet [p1; p2; p3])) "track.xlsx"
              lon_col_default lat_col_default z_col_default id_col_default None)
  = returned (@analyze_and_export_metrics stable_sorter
                (one_file (sheet [p3; p1; p2])) "track.xlsx"
                lon_col_default lat_col_default z_col_default id_col_default
                None).
Proof.
  apply (@row_order_irrelevant stable_sorter _ _ _ _ _ _ _ _ _
           (sheet [p1; p2; p3]) (sheet [p3; p1; p2])); try reflexivity.
  - apply stable_sorter_contract.
  - cbn [rows sheet].
    apply Permutation_sym. apply (Permutation_cons_app [p1; p2] []).
    apply Permutation_refl.
  - cbn. repeat constructor; cbn; intros F;
      repeat (destruct F as [F|F]; [injection F; lra|]); exact F.
Defined.

(** C8.  The value returned does not depend on the report: it is the same
    whether [output_filename] is absent or given and whether the file can
    be written or not.  When a record is returned and a report name is
    given, the trace ends with the outcome of the write: the file and a
    success message, or, if writing raised, a warning and nothing else. *)
Theorem report_failure_is_not_terminal `{Sorter}
    (read : string -> result DataFrame)
    (write1 write2 : string -> Report -> result unit)
    (file_path lon_col lat_col z_col id_col : string)
    (output_filename1 output_filename2 : option string) :
  returned (analyze_and_export_metrics (mkEnv read write1) file_path
              lon_col lat_col z_col id_col output_filename1)
  = returned (analyze_and_export_metrics (mkEnv read write2) file_path
                lon_col lat_col z_col id_col output_filename2)
  /\ (forall name r,
        name <> EmptyString ->
        returned (analyze_and_export_metrics (mkEnv read write1) file_path
                    lon_col lat_col z_col id_col (Some name)) = Ok (Some r) ->
        exists lines,
          let content := {| report_lines := lines; report_raw := r |} in
          trace (analyze_and_export_metrics (mkEnv read write1) file_path
                   lon_col lat_col z_col id_col (Some name))
          = [Printed (MsgInitiating file_path); Printed (MsgFinalMetrics lines)]
            ++ match write1 name content with
               | Ok _ => [FileWritten name content; Printed (MsgExported name)]
               | Raise e => [Printed (MsgWarningNotWritten name e)]
               end).
Proof.
  split.
  - now rewrite !analyze_returned.
  - intros name r Hname Hret.
    destruct (analyze_trace _ _ _ _ _ _ _ _ Hret) as [lines Htr].
    exists lines. cbn zeta. rewrite Htr.
    now rewrite export_report_run.
Qed.

Lemma report_failure_is_not_terminal_witness :
  exists lines,
    trace (@analyze_and_export_metrics stable_sorter
             (one_file (sheet [p1; p2])) "track.xlsx"
             lon_col_default lat_col_default z_col_default id_col_default
             (Some "locked.txt"%string))
    = [Printed (MsgInitiating "track.xlsx"); Printed (MsgFinalMetrics lines);
       Printed (MsgWarningNotWritten "locked.txt"
                (OtherException "Permission denied"))].
Proof.
  destruct (@report_failure_is_not_terminal stable_sorter
              (read_excel (one_file (sheet [p1; p2])))
              (write_text (one_file (sheet [p1; p2])))
              (write_text (one_file (sheet [p1; p2])))
              "track.xlsx" lon_col_default lat_col_default z_col_default
              id_col_default None None) as [_ Hlog].
  destruct (Hlog "locked.txt"%string
              (metrics_over "track.xlsx"
                 (surviving_steps lon_col_default lat_col_default z_col_default
                    (insertion_reorder (fun r => r id_col_default) [p1; p2]))))
    as [lines Htr].
  - discriminate.
  - apply (@analyze_on_steps stable_sorter _ _ _ _ _ _ _ (sheet [p1; p2]));
      reflexivity.
  - exists lines. exact Htr.
Defined.

(** C10.  Every numeric field of a returned record is non-negative. *)
Theorem returned_fields_nonnegative `{Sorter} (env : Env)
    (file_path lon_col lat_col z_col id_col : string)
    (output_filename : option string) (r : Results) :
  returned (analyze_and_export_metrics env file_path lon_col lat_col z_col
              id_col output_filename) = Ok (Some r) ->
  Forall nonneg (numeric_fields r).
Proof.
  intros Hret. apply analyze_returned_some in Hret as (df & _ & _ & Hmet).
  unfold metrics_of_table in Hmet.
  destruct (step_columns df lon_col lat_col z_col id_col) as [df'|e];
    [|discriminate].
  cbn [rbind] in Hmet. apply aggregate_table_shape in Hmet as (X & Y & ->).
  apply compile_results_nonneg.
Qed.

Lemma returned_fields_nonnegative_witness :
  Forall nonneg
    (numeric_fields
       (metrics_over "track.xlsx"
          (surviving_steps lon_col_default lat_col_default z_col_default
             (insertion_reorder (fun r => r id_col_default) [p2; p1; p3])))).
Proof.
  apply (@returned_fields_nonnegative stable_sorter
           (one_file (sheet [p2; p1; p3])) "track.xlsx"
           lon_col_default lat_col_default z_col_default id_col_default None).
  apply (@analyze_on_steps stable_sorter _ _ _ _ _ _ _ (sheet [p2; p1; p3]));
    reflexivity.
Defined.


(** ** No exception after the checks *)

Lemma step_columns_total `{Sorter} (df : DataFrame)
    (lon_col lat_col z_col id_col : string) :
  forallb (has_column df) [lon_col; lat_col; z_col; id_col] = true ->
  exists df',
    step_columns df lon_col lat_col z_col id_col = Ok df'
    /\ has_column df' "d_horizontal_m" = true
    /\ has_column df' "dZ_m" = true
    /\ df_len df' = List.length (reorder (fun r => r id_col) (rows df)).
Proof.
  intros Hcols. cbn [forallb] in Hcols.
  apply andb_prop in Hcols as [Hlon Hcols].
  apply andb_prop in Hcols as [Hlat Hcols].
  apply andb_prop in Hcols as [Hz Hcols].
  apply andb_prop in Hcols as [Hid _].
  unfold step_columns, sort_values. rewrite Hid. cbn [rbind].
  unfold reset_index_drop.
  set (df0 := {| columns := columns df;
                 rows := reorder (fun r => r id_col) (rows df) |}).
  assert (L0 : df_len df0
               = List.length (reorder (fun r => r id_col) (rows df)))
    by reflexivity.
  change (has_column df lon_col) with (has_column df0 lon_col) in Hlon.
  change (has_column df lat_col) with (has_column df0 lat_col) in Hlat.
  change (has_column df z_col) with (has_column df0 z_col) in Hz.
  clearbody df0.
  repeat (rewrite getitem_present
            by (rewrite ?has_column_setitem, ?Hlon, ?Hlat, ?Hz, ?orb_true_r;
                reflexivity);
          cbn [rbind]).
  eexists. split; [reflexivity|].
  rewrite !has_column_setitem, !df_len_setitem. repeat split; try reflexivity.
  exact L0.
Qed.

Lemma aggregate_table_total (df : DataFrame) (file_path : string) :
  has_column df "d_horizontal_m" = true ->
  has_column df "dZ_m" = true ->
  exists r, aggregate_table df file_path = Ok r.
Proof.
  intros HD HZ. eexists.
  apply aggregate_table_ok; now apply getitem_present.
Qed.

(** X4.  [None] is returned on the failure paths of lines 38-52 only:
    whenever the function returns, what it returns is a record exactly
    when the spreadsheet loaded, is not empty and has the four columns,
    whatever the four column labels are. *)
Theorem returned_record_iff_accepted `{Sorter} (env : Env)
    (file_path lon_col lat_col z_col id_col : string)
    (output_filename : option string) (v : option Results) :
  returned (analyze_and_export_metrics env file_path lon_col lat_col z_col
              id_col output_filename) = Ok v ->
  (exists r, v = Some r)
  <-> (exists df, read_excel env file_path = Ok df
                  /\ table_accepted df lon_col lat_col z_col id_col = true).
Proof.
  rewrite analyze_returned.
  destruct (read_excel env file_path) as [df|e].
  - destruct (table_accepted df lon_col lat_col z_col id_col) eqn:Hacc.
    + destruct (table_accepted_columns _ _ _ _ _ Hacc) as [_ Hcols].
      destruct (step_columns_total df lon_col lat_col z_col id_col Hcols)
        as (df' & Hstep & HD & HZ & _).
      destruct (aggregate_table_total df' file_path HD HZ) as [r Hr].
      unfold metrics_of_table. rewrite Hstep. cbn [rbind]. rewrite Hr.
      cbn [rbind]. intros E. injection E as <-.
      split; [intros _; now exists df | intros _; now exists r].
    + intros E. injection E as <-.
      split; [intros [r Hr]; discriminate|].
      intros (df' & E & Hacc'). injection E as <-. congruence.
  - intros E. injection E as <-.
    split; [intros [r Hr]; discriminate | intros (df & E & _); discriminate].
Qed.

(** ** Order among the aggregates *)

Lemma in_le_fold_max (x v : R) (vs : list R) :
  In x (v :: vs) -> x <= fold_left Rmax vs v.
Proof.
  revert v. induction vs as [|y vs IH]; intros v Hin.
  - destruct Hin as [<-|[]]. apply Rle_refl.
  - cbn [fold_left]. destruct Hin as [E|[E|Hin]].
    + rewrite <- E.
      apply Rle_trans with (Rmax v y); [apply Rmax_l | apply fold_left_Rmax_ge].
    + rewrite <- E.
      apply Rle_trans with (Rmax v y); [apply Rmax_r | apply fold_left_Rmax_ge].
    + apply IH. now right.
Qed.

Lemma insert_sorted_length (x : R) (l : list R) :
  List.length (insert_sorted x l) = S (List.length l).
Proof.
  induction l as [|y l IH]; [reflexivity|]. cbn [insert_sorted].
  destruct (Rle_dec x y); cbn [List.length]; [reflexivity | now rewrite IH].
Qed.

Lemma sorted_values_length (l : list R) :
  List.length (sorted_values l) = List.length l.
Proof.
  induction l as [|x l IH]; [reflexivity|].
  cbn [sorted_values fold_right]. fold (sorted_values l).
  now rewrite insert_sorted_length, IH.
Qed.

Lemma nth_sorted_le_max (v : R) (vs : list R) (k : nat) :
  (k < List.length (v :: vs))%nat ->
  nth k (sorted_values (v :: vs)) 0 <= fold_left Rmax vs v.
Proof.
  intros Hk. apply in_le_fold_max. apply sorted_values_in.
  apply nth_In. now rewrite sorted_values_length.
Qed.

Lemma series_median_le_max (s : Series) :
  nan_to_zero (series_median s) <= nan_to_zero (series_max s).
Proof.
  unfold series_median, series_max.
  destruct (dropna s) as [|v vs]; [apply Rle_refl|]. cbn [nan_to_zero].
  set (n := List.length (v :: vs)).
  assert (Hn : (0 < n)%nat) by (unfold n; cbn; lia).
  assert (Hhalf : (n / 2 < n)%nat) by (apply Nat.div_lt; lia).
  pose proof (nth_sorted_le_max v vs (n / 2) Hhalf) as H1.
  assert (Hprev : (n / 2 - 1 < n)%nat) by lia.
  pose proof (nth_sorted_le_max v vs (n / 2 - 1) Hprev) as H2.
  destruct (Nat.even n); lra.
Qed.

Lemma returned_record_shape `{Sorter} (env : Env)
    (file_path lon_col lat_col z_col id_col : string)
    (output_filename : option string) (r : Results) :
  returned (analyze_and_export_metrics env file_path lon_col lat_col z_col
              id_col output_filename) = Ok (Some r) ->
  exists X Y,
    r = compile_results file_path (max_median_mean (series_abs X))
          (max_median_mean (series_abs Y)).
Proof.
  intros Hret. apply analyze_returned_some in Hret as (df & _ & _ & Hmet).
  unfold metrics_of_table in Hmet.
  destruct (step_columns df lon_col lat_col z_col id_col) as [df'|e];
    [|discriminate].
  cbn [rbind] in Hmet. now apply aggregate_table_shape in Hmet.
Qed.


Lemma sample_record :
  returned (@analyze_and_export_metrics stable_sorter
              (one_file (sheet [p1; p2; p3])) "track.xlsx"
              lon_col_default lat_col_default z_col_default id_col_default None)
  = Ok (Some (metrics_over "track.xlsx"
                (surviving_steps lon_col_default lat_col_default z_col_default
                   (insertion_reorder (fun r => r id_col_default)
                      [p1; p2; p3])))).
Proof.
  apply (@analyze_on_steps stable_sorter _ _ _ _ _ _ _ (sheet [p1; p2; p3]));
    reflexivity.
Qed.

Lemma returned_record_iff_accepted_witness :
  (exists r,
     Some (metrics_over "track.xlsx"
             (surviving_steps lon_col_default lat_col_default z_col_default
                (insertion_reorder (fun r => r id_col_default) [p1; p2; p3])))
     = Some r)
  <-> (exists df,
         read_excel (one_file (sheet [p1; p2; p3])) "track.xlsx" = Ok df
         /\ table_accepted df lon_col_default lat_col_default z_col_default
              id_col_default = true).
Proof.
  apply (@returned_record_iff_accepted stable_sorter
           (one_file (sheet [p1; p2; p3])) "track.xlsx"
           lon_col_default lat_col_default z_col_default id_col_default None).
  apply sample_record.
Defined.


(** X6.  The maximum grade angle of a returned record is an angle
    between 0 and 90 degrees. *)
Theorem grade_angle_within_quarter_turn `{Sorter} (env : Env)
    (file_path lon_col lat_col z_col id_col : string)
    (output_filename : option string) (r : Results) :
  returned (analyze_and_export_metrics env file_path lon_col lat_col z_col
              id_col output_filename) = Ok (Some r) ->
  0 <= Max_Grade_Angle_Degrees r <= 90.
Proof.
  intros Hret. apply returned_record_shape in Hret as (X & Y & ->).
  pose proof (series_max_nonneg _ (dropna_abs_nonneg X)) as Hmax.
  unfold compile_results, max_median_mean.
  cbn [Max_Grade_Angle_Degrees].
  set (m := nan_to_zero (series_max (series_abs X))) in *.
  pose proof PI_RGT_0 as Hpi.
  pose proof (atan_bound m) as [_ Hub].
  split.
  - now apply degrees_atan_nonneg.
  - unfold degrees.
    apply Rmult_le_reg_r with (PI / 180); [lra|].
    replace (atan m * (180 / PI) * (PI / 180)) with (atan m) by (field; lra).
    lra.
Qed.

Lemma grade_angle_within_quarter_turn_witness :
  let r := metrics_over "track.xlsx"
             (surviving_steps lon_col_default lat_col_default z_col_default
                (insertion_reorder (fun r => r id_col_default) [p1; p2; p3])) in
  0 <= Max_Grade_Angle_Degrees r <= 90.
Proof.
  cbn zeta.
  apply (@grade_angle_within_quarter_turn stable_sorter
           (one_file (sheet [p1; p2; p3])) "track.xlsx"
           lon_col_default lat_col_default z_col_default id_col_default None).
  apply sample_record.
Defined.

(** ** Blank coordinates *)

Lemma filter_map_through {A B : Type} (p : B -> bool) (g : A -> bool)
    (f : A -> B) (l : list A) :
  (forall x, p (f x) = true -> g x = true) ->
  filter p (map f l) = filter p (map f (filter g l)).
Proof.
  intros Himp. induction l as [|x l IH]; [reflexivity|].
  cbn [map filter]. destruct (p (f x)) eqn:Hp.
  - rewrite (Himp x Hp). cbn [map filter]. rewrite Hp. now f_equal.
  - destruct (g x); cbn [map filter]; [rewrite Hp|]; exact IH.
Qed.

Lemma survivors_are_located (lon_col lat_col z_col : string) (p q : Row) :
  survives (step_between lon_col lat_col z_col p q) = true ->
  located lon_col lat_col p && located lon_col lat_col q = true.
Proof.
  unfold survives, step_between, located. cbn [horizontal_distance_m].
  destruct (p lat_col), (p lon_col), (q lat_col), (q lon_col);
    cbn; try reflexivity; discriminate.
Qed.

(** X8.  A row whose longitude or latitude cell is blank takes no part in
    the record: the steps into and out of it have no distance and are
    dropped, so the record is the one over the steps between located
    rows. *)
Theorem blank_coordinates_drop_steps `{Sorter} (env : Env)
    (file_path lon_col lat_col z_col id_col : string)
    (output_filename : option string) (df : DataFrame) :
  read_excel env file_path = Ok df ->
  table_accepted df lon_col lat_col z_col id_col = true ->
  columns_apart lon_col lat_col z_col = true ->
  let sorted := reorder (fun r => r id_col) (rows df) in
  returned (analyze_and_export_metrics env file_path lon_col lat_col z_col
              id_col output_filename)
  = Ok (Some (metrics_over file_path
                (filter survives
                   (map (fun pq => step_between lon_col lat_col z_col
                                     (fst pq) (snd pq))
                        (located_pairs lon_col lat_col sorted))))).
Proof.
  intros Hread Hacc Hap sorted.
  rewrite (analyze_on_steps env _ _ _ _ _ _ df Hread Hacc Hap).
  do 3 f_equal. unfold surviving_steps, steps_of, located_pairs.
  apply filter_map_through. intros [p q]. apply survivors_are_located.
Qed.

Lemma blank_coordinates_drop_steps_witness :
  returned (@analyze_and_export_metrics stable_sorter
              (one_file (sheet [p1; unlocated 2 4; p3])) "track.xlsx"
              lon_col_default lat_col_default z_col_default id_col_default None)
  = Ok (Some (zero_results "track.xlsx")).
Proof.
  rewrite (@blank_coordinates_drop_steps stable_sorter
             (one_file (sheet [p1; unlocated 2 4; p3])) "track.xlsx"
             lon_col_default lat_col_default z_col_default id_col_default None
             (sheet [p1; unlocated 2 4; p3]));
    try reflexivity.
  do 2 f_equal. rewrite <- metrics_over_nil. f_equal.
  cbn [rows sheet reorder stable_sorter].
  assert (E : insertion_reorder (fun r => r id_col_default)
                [p1; unlocated 2 4; p3] = [p1; unlocated 2 4; p3]).
  { cbn. destruct (Rle_dec 2 3) as [_|n]; [|exfalso; lra].
    cbn. destruct (Rle_dec 1 2) as [_|n]; [reflexivity | exfalso; lra]. }
  rewrite E. reflexivity.
Defined.

(** ** What is printed and written *)

Lemma analyze_trace_none `{Sorter} (env : Env)
    (file_path lon_col lat_col z_col id_col : string)
    (output_filename : option string) :
  returned (analyze_and_export_metrics env file_path lon_col lat_col z_col
              id_col output_filename) = Ok None ->
  exists m,
    trace (analyze_and_export_metrics env file_path lon_col lat_col z_col
             id_col output_filename)
    = [Printed (MsgInitiating file_path); Printed m]
    /\ (m = MsgErrorNotFound file_path
        \/ (exists e, m = MsgErrorLoad e)
        \/ m = MsgErrorEmptyOrMissing [lon_col; lat_col; z_col; id_col]).
Proof.
  intros Hret.
  pose proof (analyze_returned env file_path lon_col lat_col z_col id_col
                output_filename) as Hr.
  rewrite Hret in Hr.
  unfold trace, run, analyze_and_export_metrics.
  unfold bind at 1. unfold print at 1, emit at 1.
  unfold bind at 1. unfold try_except, bind at 1, lift at 1.
  destruct (read_excel env file_path) as [df|e].
  - unfold ret at 1.
    destruct (table_accepted df lon_col lat_col z_col id_col) eqn:Hacc.
    + exfalso.
      destruct (metrics_of_table df file_path lon_col lat_col z_col id_col);
        discriminate.
    + unfold table_accepted in Hacc. apply negb_false_iff in Hacc.
      rewrite Hacc. eexists. split; [reflexivity|]. right. now right.
  - destruct e; eexists; (split; [reflexivity|]); eauto.
Qed.

Lemma returned_cases `{Sorter} (env : Env)
    (file_path lon_col lat_col z_col id_col : string)
    (output_filename : option string) :
  let outcome :=
    returned (analyze_and_export_metrics env file_path lon_col lat_col z_col
                id_col output_filename) in
  outcome = Ok None \/ exists r, outcome = Ok (Some r).
Proof.
  cbn zeta. rewrite analyze_returned.
  destruct (read_excel env file_path) as [df|e]; [|now left].
  destruct (table_accepted df lon_col lat_col z_col id_col) eqn:Hacc;
    [|now left].
  destruct (table_accepted_columns _ _ _ _ _ Hacc) as [_ Hcols].
  destruct (step_columns_total df lon_col lat_col z_col id_col Hcols)
    as (df' & Hstep & HD & HZ & _).
  destruct (aggregate_table_total df' file_path HD HZ) as [r Hr].
  unfold metrics_of_table. rewrite Hstep. cbn [rbind]. rewrite Hr.
  right. now exists r.
Qed.

Lemma file_written_requires `{Sorter} (env : Env)
    (file_path lon_col lat_col z_col id_col : string)
    (output_filename : option string) (name : string) (content : Report) :
  let call := analyze_and_export_metrics env file_path lon_col lat_col z_col
                id_col output_filename in
  In (FileWritten name content) (trace call) ->
  output_filename = Some name
  /\ name <> EmptyString
  /\ write_text env name content = Ok tt
  /\ returned call = Ok (Some (report_raw content)).
Proof.
  cbn zeta. intros Hin.
  destruct (returned_cases env file_path lon_col lat_col z_col id_col
              output_filename) as [Hnone | [r Hr]].
  - destruct (analyze_trace_none _ _ _ _ _ _ _ Hnone) as (m & Hm & _).
    rewrite Hm in Hin. exfalso.
    destruct Hin as [F|[F|[]]]; discriminate.
  - destruct (analyze_trace _ _ _ _ _ _ _ _ Hr) as [lines Htr].
    rewrite Htr in Hin.
    destruct output_filename as [[|ch rest]|].
    + exfalso. cbn in Hin. destruct Hin as [F|[F|[]]]; discriminate.
    + rewrite export_report_run in Hin by discriminate. cbn [snd] in Hin.
      destruct (write_text env (String ch rest) _) as [[]|e] eqn:Hw.
      * cbn in Hin. destruct Hin as [F|[F|[F|[F|[]]]]]; try discriminate.
        injection F as <- <-. repeat split; try assumption. discriminate.
      * exfalso. cbn in Hin. destruct Hin as [F|[F|[F|[]]]]; discriminate.
    + exfalso. cbn in Hin. destruct Hin as [F|[F|[]]]; discriminate.
Qed.

(** X9.  On failure the function prints its banner and one error
    message, nothing more.  A report file is written only when
    [output_filename] is a non-empty name, a record is returned and the
    write succeeds, and what it dumps is the returned record. *)
Theorem report_only_with_record `{Sorter} (env : Env)
    (file_path lon_col lat_col z_col id_col : string)
    (output_filename : option string) :
  let call := analyze_and_export_metrics env file_path lon_col lat_col z_col
                id_col output_filename in
  (returned call = Ok None ->
   exists m, trace call = [Printed (MsgInitiating file_path); Printed m]
             /\ (m = MsgErrorNotFound file_path
                 \/ (exists e, m = MsgErrorLoad e)
                 \/ m = MsgErrorEmptyOrMissing [lon_col; lat_col; z_col; id_col]))
  /\ (forall name content,
        In (FileWritten name content) (trace call) ->
        output_filename = Some name
        /\ name <> EmptyString
        /\ write_text env name content = Ok tt
        /\ returned call = Ok (Some (report_raw content))).
Proof.
  cbn zeta. split.
  - apply analyze_trace_none.
  - intros name content. apply file_written_requires.
Qed.

Lemma report_only_with_record_witness :
  exists m,
    trace (@analyze_and_export_metrics stable_sorter
             (one_file (sheet [p1; p2])) "absent.xlsx"
             lon_col_default lat_col_default z_col_default id_col_default
             (Some "report.txt"%string))
    = [Printed (MsgInitiating "absent.xlsx"); Printed m].
Proof.
  destruct (@report_only_with_record stable_sorter
              (one_file (sheet [p1; p2])) "absent.xlsx"
              lon_col_default lat_col_default z_col_default id_col_default
              (Some "report.txt"%string)) as [Hfail _].
  destruct Hfail as (m & Hm & _); [rewrite analyze_returned; reflexivity|].
  now exists m.
Defined.

(** ** The count of filtered points *)

Lemma analyze_lines `{Sorter} (env : Env)
    (file_path lon_col lat_col z_col id_col : string)
    (output_filename : option string) (df : DataFrame) :
  read_excel env file_path = Ok df ->
  table_accepted df lon_col lat_col z_col id_col = true ->
  columns_apart lon_col lat_col z_col = true ->
  let sorted := reorder (fun r => r id_col) (rows df) in
  let kept := surviving_steps lon_col lat_col z_col sorted in
  exists lines,
    In (Printed (MsgFinalMetrics lines))
       (trace (analyze_and_export_metrics env file_path lon_col lat_col z_col
                 id_col output_filename))
    /\ line_filtered lines
       = (Z.of_nat (List.length sorted) - Z.of_nat (List.length kept))%Z.
Proof.
  intros Hread Hacc Hap sorted kept.
  destruct (table_accepted_columns _ _ _ _ _ Hacc) as [_ Hcols].
  destruct (step_columns_ok df lon_col lat_col z_col id_col Hcols Hap)
    as (df1 & Hstep & HD & HZ).
  destruct (step_columns_total df lon_col lat_col z_col id_col Hcols)
    as (df1' & Hstep' & _ & _ & Hlen).
  rewrite Hstep in Hstep'. injection Hstep' as <-.
  fold sorted in HD, HZ, Hlen.
  rewrite (distance_column lon_col lat_col z_col) in HD.
  unfold trace, run, analyze_and_export_metrics.
  unfold table_accepted in Hacc. apply negb_true_iff in Hacc.
  unfold bind at 1. unfold print at 1, emit at 1.
  unfold bind at 1. unfold try_except, bind at 1, lift at 1.
  rewrite Hread. unfold ret at 1. rewrite Hacc.
  unfold bind at 1, lift at 1. rewrite Hstep.
  unfold bind at 1, lift at 1.
  unfold clean_steps. rewrite HD. cbn [rbind].
  set (mask := series_ge _ MIN_HORIZONTAL_STEP_M).
  rewrite (getitem_select df1 _ _ mask HZ), (getitem_select df1 _ _ mask HD).
  cbn [rbind].
  pose proof (getitem_length _ _ _ (getitem_select df1 _ _ mask HZ)) as LZ.
  pose proof (getitem_length _ _ _ (getitem_select df1 _ _ mask HD)) as LD.
  unfold bind at 1, lift at 1.
  rewrite getitem_setitem_same
    by (rewrite series_abs_length; unfold series_div;
        rewrite align2_length; congruence).
  unfold bind at 1, lift at 1.
  rewrite (getitem_setitem_other _ _ "dZ_m") by reflexivity.
  rewrite (getitem_select df1 _ _ mask HZ).
  unfold bind at 1, lift at 1.
  rewrite getitem_setitem_same
    by (now rewrite series_abs_length, df_len_setitem).
  unfold bind, print, emit, ret. cbn [app].
  match goal with
  | |- context [export_report ?e ?o ?l ?r ?t] =>
      exists l; pose proof (export_report_returns e o l r t) as E;
      assert (Hpre : exists tl, snd (export_report e o l r t) = t ++ tl);
      [|destruct (export_report e o l r t) as [[[]|ex] tr']]
  end.
  { destruct output_filename as [[|ch rest]|];
      try (exists []; cbn; reflexivity).
    rewrite export_report_run by discriminate. cbn [snd]. eauto. }
  - cbn [snd] in *. destruct Hpre as [tl ->]. split.
    + cbn. right. now left.
    + cbn [make_output_lines line_filtered].
      rewrite !df_len_setitem, Hlen, <- LD. do 2 f_equal.
      unfold mask, series_ge. rewrite map_map, masked_map, length_map.
      unfold kept. rewrite <- surviving_with_prev, length_map. reflexivity.
  - discriminate E.
Qed.

(** X10.  The count of anomalies the function reports is one more than
    the number of steps the threshold removed: the first row, which has
    no step, is always counted, so the count is at least 1 even on clean
    data. *)
Theorem filtered_count_includes_first_row `{S : Sorter} (env : Env)
    (file_path lon_col lat_col z_col id_col : string)
    (output_filename : option string) (df : DataFrame) :
  sort_contract S ->
  read_excel env file_path = Ok df ->
  table_accepted df lon_col lat_col z_col id_col = true ->
  columns_apart lon_col lat_col z_col = true ->
  let sorted := reorder (fun r => r id_col) (rows df) in
  let steps := steps_of lon_col lat_col z_col sorted in
  let kept := surviving_steps lon_col lat_col z_col sorted in
  exists lines,
    In (Printed (MsgFinalMetrics lines))
       (trace (analyze_and_export_metrics env file_path lon_col lat_col z_col
                 id_col output_filename))
    /\ line_filtered lines
       = (1 + Z.of_nat (List.length steps - List.length kept))%Z.
Proof.
  intros [Hperm _] Hread Hacc Hap sorted steps kept.
  destruct (analyze_lines env file_path lon_col lat_col z_col id_col
              output_filename df Hread Hacc Hap) as (lines & Hin & Hcount).
  exists lines. split; [exact Hin|]. rewrite Hcount. fold sorted kept.
  assert (Hsteps : List.length steps = Nat.pred (List.length sorted))
    by (unfold steps, steps_of; rewrite length_map; apply adjacent_pairs_length).
  assert (Hkept : (List.length kept <= List.length steps)%nat)
    by (unfold kept, surviving_steps; apply filter_length_le).
  assert (Hpos : (0 < List.length sorted)%nat).
  { unfold sorted. rewrite (Permutation_length (Hperm _ (rows df))).
    destruct (table_accepted_columns _ _ _ _ _ Hacc) as [Hne _].
    unfold df_empty in Hne.
    destruct (columns df); [discriminate|].
    destruct (rows df); [discriminate | cbn; lia]. }
  lia.
Qed.

Lemma filtered_count_includes_first_row_witness :
  exists lines,
    In (Printed (MsgFinalMetrics lines))
       (trace (@analyze_and_export_metrics stable_sorter
                 (one_file (sheet [p1])) "track.xlsx"
                 lon_col_default lat_col_default z_col_default id_col_default
                 None))
    /\ line_filtered lines = 1%Z.
Proof.
  destruct (@filtered_count_includes_first_row stable_sorter
              (one_file (sheet [p1])) "track.xlsx"
              lon_col_default lat_col_default z_col_default id_col_default
              None (sheet [p1]) stable_sorter_contract
              eq_refl eq_refl eq_refl) as (lines & Hin & Hcount).
  exists lines. split; [exact Hin | exact Hcount].
Defined.

(** * The assembler *)

(** ** Substrings *)

Lemma prefix_spec (p s : string) :
  String.prefix p s = true <-> exists post, s = (p ++ post)%string.
Proof.
  revert s. induction p as [|a p IH]; intros s.
  - split; [intros _; now exists s | intros _; now destruct s].
  - destruct s as [|b s]; cbn.
    + split; [discriminate | intros [post F]; discriminate].
    + destruct (Ascii.ascii_dec a b) as [->|Hne].
      * rewrite IH. split; intros [post E]; exists post; congruence.
      * split; [discriminate|]. intros [post E]. congruence.
Qed.

Lemma contains_spec (needle hay : string) :
  contains needle hay = true
  <-> exists pre post, hay = (pre ++ needle ++ post)%string.
Proof.
  induction hay as [|c hay IH]; cbn [contains].
  - destruct (String.prefix needle "") eqn:Hp.
    + split; [intros _|reflexivity].
      apply prefix_spec in Hp as [post E]. now exists ""%string, post.
    + split; [discriminate|]. intros (pre & post & E). exfalso.
      destruct pre as [|a pre]; [|discriminate].
      cbn in E. assert (String.prefix needle "" = true)
        by (apply prefix_spec; now exists post).
      congruence.
  - destruct (String.prefix needle (String c hay)) eqn:Hp.
    + split; [intros _|reflexivity].
      apply prefix_spec in Hp as [post E]. now exists ""%string, post.
    + rewrite IH. split.
      * intros (pre & post & E). exists (String c pre), post. cbn. now rewrite E.
      * intros (pre & post & E). destruct pre as [|a pre].
        -- exfalso. cbn in E.
           assert (String.prefix needle (String c hay) = true)
             by (apply prefix_spec; now exists post).
           congruence.
        -- cbn in E. injection E as _ E. now exists pre, post.
Qed.

(** ** The classification *)

Lemma label_and_score_raises (results : list Item) :
  Exists (fun item => ~ well_formed item) results ->
  exists e, label_and_score results = Raise e.
Proof.
  induction results as [|item rest IH]; intros Hex; [inversion Hex|].
  cbn [label_and_score].
  destruct (item_label item) as [label|] eqn:Hl; [|eauto].
  destruct (item_score item) as [score|] eqn:Hs; [|eauto].
  inversion Hex as [? ? Hbad|? ? Hrest]; subst.
  - exfalso. apply Hbad. unfold well_formed. rewrite Hl, Hs. split; discriminate.
  - destruct (IH Hrest) as [e ->]. cbn. eauto.
Qed.

Lemma label_and_score_ok (results : list Item) :
  Forall well_formed results ->
  exists entries,
    label_and_score results = Ok entries
    /\ map (fun entry => Some (fst entry)) entries = map item_label results
    /\ map (fun entry => Some (snd entry)) entries = map item_score results.
Proof.
  induction 1 as [|item rest [Hl Hs] _ IH].
  - exists []. now repeat split.
  - destruct IH as (entries & E & Hls & Hss). cbn [label_and_score].
    destruct (item_label item) as [label|] eqn:El; [|contradiction].
    destruct (item_score item) as [score|] eqn:Es; [|contradiction].
    rewrite E. cbn [rbind]. exists ((label, score) :: entries).
    cbn [map fst snd]. rewrite Hls, Hss, El, Es. now repeat split.
Qed.

Lemma combine_on_record `{Sorter} (env : Env)
    (classifier : string -> result (list Item))
    (db_path image_path : string) (pretty : bool) (r : Results) :
  returned (analyze_and_export_metrics env db_path lon_col_default
              lat_col_default z_col_default id_col_default None)
  = Ok (Some r) ->
  fst (combine_analysis_to_json env classifier db_path image_path pretty)
  = Ok {| json_value :=
            final_data r (fst (classify_terrain classifier image_path));
          json_indent := if pretty then Some 4%nat else None |}.
Proof.
  unfold returned, combine_analysis_to_json. intros Hret.
  destruct (run _) as [res printed]. cbn [fst] in Hret. subst res.
  now destruct (classify_terrain classifier image_path).
Qed.

Lemma combine_on_failure `{Sorter} (env : Env)
    (classifier : string -> result (list Item))
    (db_path image_path : string) (pretty : bool) :
  returned (analyze_and_export_metrics env db_path lon_col_default
              lat_col_default z_col_default id_col_default None)
  = Ok None ->
  combine_analysis_to_json env classifier db_path image_path pretty
  = (Ok {| json_value := failure_data; json_indent := None |},
     Said MsgStarting
     :: map FromAnalysis
          (trace (analyze_and_export_metrics env db_path lon_col_default
                    lat_col_default z_col_default id_col_default None))
     ++ [Said MsgAnalysisFailed]).
Proof.
  unfold returned, trace, combine_analysis_to_json. intros Hret.
  destruct (run _) as [res printed]. cbn [fst snd] in *. now subst res.
Qed.

Lemma classify_terrain_events (classifier : string -> result (list Item))
    (image_path : string) :
  forallb own_event (snd (classify_terrain classifier image_path)) = true.
Proof.
  unfold classify_terrain, get_terrain_classification.
  destruct (classifier image_path) as [answer|x];
    destruct (label_and_score _); reflexivity.
Qed.

Lemma combine_trace `{Sorter} (env : Env)
    (classifier : string -> result (list Item))
    (db_path image_path : string) (pretty : bool) :
  exists tl,
    snd (combine_analysis_to_json env classifier db_path image_path pretty)
    = Said MsgStarting
      :: map FromAnalysis
           (trace (analyze_and_export_metrics env db_path lon_col_default
                     lat_col_default z_col_default id_col_default None))
      ++ tl
    /\ forallb own_event tl = true.
Proof.
  unfold trace, combine_analysis_to_json.
  destruct (run _) as [[[r|]|x] printed]; cbn [snd].
  - pose proof (classify_terrain_events classifier image_path) as Hown.
    destruct (classify_terrain classifier image_path) as [entries said].
    cbn [snd] in *. exists (said ++ [Said MsgCompiled]). split; [reflexivity|].
    rewrite forallb_app, Hown. reflexivity.
  - exists [Said MsgAnalysisFailed]. now split.
  - exists []. split; [now rewrite app_nil_r | reflexivity].
Qed.

(** X13.  The assembler never writes a report file: it calls the analysis
    without a report name, and no file write occurs in its trace. *)
Theorem assembler_writes_no_file `{Sorter} (env : Env)
    (classifier : string -> result (list Item))
    (db_path image_path : string) (pretty : bool)
    (name : string) (content : Report) :
  ~ In (FromAnalysis (FileWritten name content))
       (snd (combine_analysis_to_json env classifier db_path image_path
               pretty)).
Proof.
  intros Hin.
  destruct (combine_trace env classifier db_path image_path pretty)
    as (tl & Htr & Hown).
  rewrite Htr in Hin. destruct Hin as [F|Hin]; [discriminate|].
  apply in_app_or in Hin as [Hin|Hin].
  - apply in_map_iff in Hin as (e & E & He). injection E as ->.
    apply file_written_requires in He as [F _]. discriminate.
  - rewrite forallb_forall in Hown. apply Hown in Hin. discriminate.
Qed.

(** X14.  When the metrics cannot be had (the spreadsheet does not load,
    is empty or lacks a column), the assembler returns the error document,
    unindented whatever [pretty] is, and never consults the classifier:
    its result and its trace are the same for every classifier and image
    path. *)
Theorem assembler_failure_document `{Sorter} (env : Env)
    (classifier1 classifier2 : string -> result (list Item))
    (db_path image_path1 image_path2 : string) (pretty1 pretty2 : bool) :
  (forall df, read_excel env db_path = Ok df ->
              table_accepted df lon_col_default lat_col_default z_col_default
                id_col_default = false) ->
  fst (combine_analysis_to_json env classifier1 db_path image_path1 pretty1)
  = Ok {| json_value := failure_data; json_indent := None |}
  /\ combine_analysis_to_json env classifier1 db_path image_path1 pretty1
     = combine_analysis_to_json env classifier2 db_path image_path2 pretty2.
Proof.
  intros Hrej.
  assert (Hnone : returned (analyze_and_export_metrics env db_path
                              lon_col_default lat_col_default z_col_default
                              id_col_default None) = Ok None).
  { rewrite analyze_returned.
    destruct (read_excel env db_path) as [df|e] eqn:Hread; [|reflexivity].
    now rewrite (Hrej df eq_refl). }
  rewrite !(combine_on_failure _ _ _ _ _ Hnone). now split.
Qed.

Lemma assembler_failure_document_witness :
  fst (@combine_analysis_to_json stable_sorter (one_file (sheet []))
         broken_classifier "track.xlsx" "photo.png" true)
  = Ok {| json_value := failure_data; json_indent := None |}.
Proof.
  apply (@assembler_failure_document stable_sorter (one_file (sheet []))
           broken_classifier broken_classifier "track.xlsx"
           "photo.png" "photo.png" true true).
  intros df Hread. cbn in Hread. injection Hread as <-. reflexivity.
Defined.

Lemma classify_terrain_empty (classifier : string -> result (list Item))
    (image_path : string) :
  (exists e, classifier image_path = Raise e)
  \/ (exists items, classifier image_path = Ok items
                    /\ (items = [] \/ Exists (fun item => ~ well_formed item) items)) ->
  fst (classify_terrain classifier image_path) = [].
Proof.
  unfold classify_terrain, get_terrain_classification.
  intros [[e ->] | (items & -> & [-> | Hbad])]; try reflexivity.
  destruct (label_and_score_raises items Hbad) as [e ->]. reflexivity.
Qed.

(** X15.  If the classifier fails, answers with nothing, or answers with
    an entry that lacks its label or its score, the whole classification
    is dropped: the document still carries the metrics, its list of
    classifications is empty, the terrain is "unknown" and the tread is
    the all-terrain one. *)
Theorem classification_failure_is_unknown `{Sorter} (env : Env)
    (classifier : string -> result (list Item))
    (db_path image_path : string) (pretty : bool) (r : Results) :
  returned (analyze_and_export_metrics env db_path lon_col_default
              lat_col_default z_col_default id_col_default None)
  = Ok (Some r) ->
  (exists e, classifier image_path = Raise e)
  \/ (exists items, classifier image_path = Ok items
                    /\ (items = [] \/ Exists (fun item => ~ well_formed item) items)) ->
  exists text,
    fst (combine_analysis_to_json env classifier db_path image_path pretty)
    = Ok text
    /\ json_value text = final_data r []
    /\ member "qualitative_metrics_full" (json_value text) = Some (JArray [])
    /\ member_at ["design_recommendations"; "primary_terrain_type"]%string
         (json_value text) = Some (JString "unknown")
    /\ member_at ["design_recommendations"; "tire_tread_suggestion"]%string
         (json_value text) = Some (JString "All-Terrain Tread")
    /\ member_at ["quantitative_metrics"; "max_grade_percent"]%string
         (json_value text) = Some (JNumber (Max_Grade_Percent r)).
Proof.
  intros Hret Hbad.
  rewrite (combine_on_record _ _ _ _ _ _ Hret).
  rewrite (classify_terrain_empty _ _ Hbad).
  eexists. split; [reflexivity|]. cbn [json_value]. repeat split.
Qed.

Lemma sample_record_two :
  returned (@analyze_and_export_metrics stable_sorter
              (one_file (sheet [p1; p2])) "track.xlsx"
              lon_col_default lat_col_default z_col_default id_col_default None)
  = Ok (Some (metrics_over "track.xlsx"
                (surviving_steps lon_col_default lat_col_default z_col_default
                   (insertion_reorder (fun r => r id_col_default) [p1; p2])))).
Proof.
  apply (@analyze_on_steps stable_sorter _ _ _ _ _ _ _ (sheet [p1; p2]));
    reflexivity.
Qed.

Lemma classification_failure_is_unknown_witness :
  exists text,
    fst (@combine_analysis_to_json stable_sorter (one_file (sheet [p1; p2]))
           (answers [{| item_label := Some "rocky"%string; item_score := Some 1 |};
                     {| item_label := Some "sandy"%string; item_score := None |}])
           "track.xlsx" "photo.png" false)
    = Ok text
    /\ member_at ["design_recommendations"; "primary_terrain_type"]%string
         (json_value text) = Some (JString "unknown").
Proof.
  destruct (@classification_failure_is_unknown stable_sorter
              (one_file (sheet [p1; p2]))
              (answers [{| item_label := Some "rocky"%string; item_score := Some 1 |};
                        {| item_label := Some "sandy"%string; item_score := None |}])
              "track.xlsx" "photo.png" false _ sample_record_two)
    as (text & Htext & _ & _ & Hterrain & _).
  - right. eexists. split; [reflexivity|]. right.
    apply Exists_cons_tl, Exists_cons_hd. intros [_ F]. now apply F.
  - exists text. exact (conj Htext Hterrain).
Defined.

(** X16.  The two wheel diameters of the document are twice the median
    and twice the maximum vertical step of the record, and they are
    ordered: 0 <= robust diameter <= maximum-safety diameter. *)
Theorem wheel_diameters_ordered `{Sorter} (env : Env)
    (classifier : string -> result (list Item))
    (db_path image_path : string) (pretty : bool) (r : Results) :
  returned (analyze_and_export_metrics env db_path lon_col_default
              lat_col_default z_col_default id_col_default None)
  = Ok (Some r) ->
  exists text robust safety,
    fst (combine_analysis_to_json env classifier db_path image_path pretty)
    = Ok text
    /\ member_at ["design_recommendations"; "robust_wheel_diameter_m"]%string
         (json_value text) = Some (JNumber robust)
    /\ member_at ["design_recommendations";
                  "max_safety_check_wheel_diameter_m"]%string
         (json_value text) = Some (JNumber safety)
    /\ robust = 2 * Median_Vertical_Step_m r
    /\ safety = 2 * Max_Vertical_Step_m r
    /\ 0 <= robust <= safety.
Proof.
  intros Hret. rewrite (combine_on_record _ _ _ _ _ _ Hret).
  do 3 eexists. split; [reflexivity|]. cbn [json_value].
  split; [reflexivity|]. split; [reflexivity|].
  destruct (returned_record_shape _ _ _ _ _ _ _ _ Hret) as (X & Y & ->).
  pose proof (series_median_le_max (series_abs Y)) as Hle.
  pose proof (series_median_nonneg _ (dropna_abs_nonneg Y)) as Hpos.
  unfold compile_results, max_median_mean.
  cbn [Median_Vertical_Step_m Max_Vertical_Step_m].
  repeat split; lra.
Qed.

Lemma wheel_diameters_ordered_witness :
  exists text robust safety,
    fst (@combine_analysis_to_json stable_sorter (one_file (sheet [p1; p2]))
           broken_classifier "track.xlsx" "photo.png" true)
    = Ok text
    /\ member_at ["design_recommendations"; "robust_wheel_diameter_m"]%string
         (json_value text) = Some (JNumber robust)
    /\ member_at ["design_recommendations";
                  "max_safety_check_wheel_diameter_m"]%string
         (json_value text) = Some (JNumber safety)
    /\ 0 <= robust <= safety.
Proof.
  destruct (@wheel_diameters_ordered stable_sorter (one_file (sheet [p1; p2]))
              broken_classifier "track.xlsx" "photo.png" true _
              sample_record_two)
    as (text & robust & safety & H1 & H2 & H3 & _ & _ & H4).
  exists text, robust, safety.
  exact (conj H1 (conj H2 (conj H3 H4))).
Defined.

Lemma contains_occurs (needle hay : string) :
  contains needle hay = true <-> occurs_in needle hay.
Proof. apply contains_spec. Qed.

Lemma contains_not_occurs (needle hay : string) :
  contains needle hay = false <-> ~ occurs_in needle hay.
Proof.
  rewrite <- contains_occurs. destruct (contains needle hay); split;
    congruence.
Qed.

(** X17.  With a well-formed classification, the terrain of the document
    is the label of the first entry and the tread follows from that label
    alone: the deep tread when "marshy" or "sandy" occurs in it, even if
    "rocky" occurs too; the tough tread when "rocky" occurs and neither of
    the other two; the all-terrain tread otherwise. *)
Theorem tread_follows_first_label `{Sorter} (env : Env)
    (classifier : string -> result (list Item))
    (db_path image_path : string) (pretty : bool) (r : Results)
    (first : Item) (rest : list Item) (label : string) :
  returned (analyze_and_export_metrics env db_path lon_col_default
              lat_col_default z_col_default id_col_default None)
  = Ok (Some r) ->
  classifier image_path = Ok (first :: rest) ->
  Forall well_formed (first :: rest) ->
  item_label first = Some label ->
  exists text tread,
    fst (combine_analysis_to_json env classifier db_path image_path pretty)
    = Ok text
    /\ member_at ["design_recommendations"; "primary_terrain_type"]%string
         (json_value text) = Some (JString label)
    /\ member_at ["design_recommendations"; "tire_tread_suggestion"]%string
         (json_value text) = Some (JString tread)
    /\ (occurs_in "marshy" label \/ occurs_in "sandy" label ->
        tread = "Deep, Aggressive Tread (Low Ground Pressure)"%string)
    /\ (~ occurs_in "marshy" label -> ~ occurs_in "sandy" label ->
        occurs_in "rocky" label ->
        tread = "Tough, Puncture-Resistant Tread (Durability)"%string)
    /\ (~ occurs_in "marshy" label -> ~ occurs_in "sandy" label ->
        ~ occurs_in "rocky" label ->
        tread = "All-Terrain Tread"%string).
Proof.
  intros Hret Hans Hwf Hlabel.
  rewrite (combine_on_record _ _ _ _ _ _ Hret).
  destruct (label_and_score_ok _ Hwf) as (entries & Hok & Hlabels & _).
  assert (Hcls : fst (classify_terrain classifier image_path) = entries).
  { unfold classify_terrain, get_terrain_classification.
    now rewrite Hans, Hok. }
  rewrite Hcls.
  destruct entries as [|[label' score] entries]; [discriminate|].
  cbn [map fst] in Hlabels. injection Hlabels as Hl _.
  assert (label' = label) by congruence. subst label'.
  exists {| json_value := final_data r ((label, score) :: entries);
            json_indent := if pretty then Some 4%nat else None |},
    (tire_tread_suggestion_for label).
  split; [reflexivity|]. cbn [json_value].
  split; [reflexivity|]. split; [reflexivity|].
  unfold tire_tread_suggestion_for. repeat split.
  - intros [Hm|Hs].
    + apply contains_occurs in Hm. now rewrite Hm.
    + apply contains_occurs in Hs. rewrite Hs, orb_true_r. reflexivity.
  - intros Hm Hs Hr. apply contains_not_occurs in Hm, Hs.
    apply contains_occurs in Hr. now rewrite Hm, Hs, Hr.
  - intros Hm Hs Hr. apply contains_not_occurs in Hm, Hs, Hr.
    now rewrite Hm, Hs, Hr.
Qed.

Lemma tread_follows_first_label_witness :
  exists text,
    fst (@combine_analysis_to_json stable_sorter (one_file (sheet [p1; p2]))
           (answers [{| item_label := Some "rocky and marshy"%string;
                        item_score := Some 1 |}])
           "track.xlsx" "photo.png" false)
    = Ok text
    /\ member_at ["design_recommendations"; "tire_tread_suggestion"]%string
         (json_value text)
       = Some (JString "Deep, Aggressive Tread (Low Ground Pressure)").
Proof.
  destruct (@tread_follows_first_label stable_sorter (one_file (sheet [p1; p2]))
              (answers [{| item_label := Some "rocky and marshy"%string;
                           item_score := Some 1 |}])
              "track.xlsx" "photo.png" false _
              {| item_label := Some "rocky and marshy"%string;
                 item_score := Some 1 |} [] "rocky and marshy"
              sample_record_two eq_refl)
    as (text & tread & Htext & _ & Htread & Hdeep & _).
  - constructor; [|constructor]. split; discriminate.
  - reflexivity.
  - exists text. split; [exact Htext|]. rewrite Htread, Hdeep; [reflexivity|].
    left. now exists "rocky and "%string, ""%string.
Defined.

(** * The validators *)

(** ** Strings *)

Lemma str_app_assoc (a b c : string) :
  ((a ++ b) ++ c = a ++ (b ++ c))%string.
Proof. induction a as [|x a IH]; cbn; [reflexivity | now rewrite IH]. Qed.

Lemma str_app_length (a b : string) :
  String.length (a ++ b) = (String.length a + String.length b)%nat.
Proof. induction a as [|x a IH]; cbn; [reflexivity | now rewrite IH]. Qed.

Lemma index_of_app (c : ascii) (p r : string) :
  has_char c p = false ->
  index_of c (p ++ String c r) = Some (String.length p).
Proof.
  induction p as [|a p IH]; cbn; intros Hp.
  - now rewrite Ascii.eqb_refl.
  - apply orb_false_iff in Hp as [Ha Hp]. rewrite Ha, (IH Hp). reflexivity.
Qed.

Lemma index_of_none (c : ascii) (s : string) :
  has_char c s = false -> index_of c s = None.
Proof.
  induction s as [|a s IH]; cbn; intros Hs; [reflexivity|].
  apply orb_false_iff in Hs as [Ha Hs]. now rewrite Ha, (IH Hs).
Qed.

Lemma last_index_of_none (c : ascii) (s : string) :
  has_char c s = false -> last_index_of c s = None.
Proof.
  induction s as [|a s IH]; cbn; intros Hs; [reflexivity|].
  apply orb_false_iff in Hs as [Ha Hs]. now rewrite (IH Hs), Ha.
Qed.

Lemma last_index_of_app (c : ascii) (p q : string) :
  has_char c q = false ->
  last_index_of c (p ++ String c q) = Some (String.length p).
Proof.
  intros Hq. induction p as [|a p IH]; cbn.
  - now rewrite (last_index_of_none c q Hq), Ascii.eqb_refl.
  - now rewrite IH.
Qed.

Lemma has_char_lstrip (c : ascii) (s : string) :
  has_char c s = false -> has_char c (lstrip s) = false.
Proof.
  induction s as [|a s IH]; cbn; intros Hs; [reflexivity|].
  destruct (is_space a); [|exact Hs].
  apply orb_false_iff in Hs as [_ Hs]. now apply IH.
Qed.

Lemma has_char_rstrip (c : ascii) (s : string) :
  has_char c s = false -> has_char c (rstrip s) = false.
Proof.
  induction s as [|a s IH]; cbn; intros Hs; [reflexivity|].
  apply orb_false_iff in Hs as [Ha Hs]. specialize (IH Hs).
  destruct (rstrip s) as [|b kept].
  - destruct (is_space a); cbn; [reflexivity | now rewrite Ha].
  - change (has_char c (String a (String b kept)))
      with (Ascii.eqb a c || has_char c (String b kept)).
    now rewrite Ha, IH.
Qed.

Lemma lstrip_app (c : ascii) (p r : string) :
  is_space c = false ->
  lstrip (p ++ String c r) = (lstrip p ++ String c r)%string.
Proof.
  intros Hc. induction p as [|a p IH]; cbn.
  - now rewrite Hc.
  - destruct (is_space a); [exact IH | reflexivity].
Qed.

Lemma rstrip_cons (c : ascii) (q : string) :
  is_space c = false -> rstrip (String c q) = String c (rstrip q).
Proof. intros Hc. cbn. destruct (rstrip q); [now rewrite Hc | reflexivity]. Qed.

Lemma rstrip_app (a b : string) :
  rstrip b <> EmptyString -> rstrip (a ++ b) = (a ++ rstrip b)%string.
Proof.
  intros Hb. induction a as [|x a IH]; cbn; [reflexivity|].
  rewrite IH. destruct (a ++ rstrip b)%string eqn:E; [|reflexivity].
  exfalso. destruct a; [cbn in E; contradiction | discriminate].
Qed.

Lemma substring_middle (p m q : string) :
  substring (String.length p) (String.length m) (p ++ m ++ q) = m.
Proof.
  induction p as [|x p IH]; cbn [String.length append substring].
  - induction m as [|y m IHm]; cbn.
    + now destruct q.
    + now rewrite IHm.
  - exact IH.
Qed.

Lemma brace_not_space :
  is_space "{" = false /\ is_space "}" = false.
Proof. split; reflexivity. Qed.

(** ** The object inside the text *)

Lemma object_text_fenced (pre mid post : string) :
  has_char "{" pre = false -> has_char "}" post = false ->
  object_text (pre ++ String "{" (mid ++ String "}" post))
  = Returns (String "{" (mid ++ String "}" EmptyString)).
Proof.
  intros Hpre Hpost. destruct brace_not_space as [Hopen Hclose].
  unfold object_text, strip.
  rewrite (lstrip_app _ _ _ Hopen).
  set (pre' := lstrip pre). set (post' := rstrip post).
  assert (Hpre' : has_char "{" pre' = false) by now apply has_char_lstrip.
  assert (Hpost' : has_char "}" post' = false) by now apply has_char_rstrip.
  assert (Htxt : rstrip (pre' ++ String "{" (mid ++ String "}" post))
                 = (pre' ++ String "{" (mid ++ String "}" post'))%string).
  { change (String "{" (mid ++ String "}" post))
      with ((String "{" mid) ++ String "}" post)%string.
    rewrite <- str_app_assoc, rstrip_app.
    - rewrite (rstrip_cons _ _ Hclose), str_app_assoc. reflexivity.
    - rewrite (rstrip_cons _ _ Hclose). discriminate. }
  rewrite Htxt. unfold find, rfind.
  assert (Hlast : last_index_of "}" (pre' ++ String "{" (mid ++ String "}" post'))
                  = Some (String.length pre' + S (String.length mid))%nat).
  { change (pre' ++ String "{" (mid ++ String "}" post'))%string
      with (pre' ++ (String "{" mid ++ String "}" post'))%string.
    rewrite <- str_app_assoc, (last_index_of_app _ _ _ Hpost').
    now rewrite str_app_length. }
  rewrite (index_of_app _ _ _ Hpre'), Hlast.
  replace ((Z.of_nat (String.length pre') =? -1)%Z) with false
    by (symmetry; apply Z.eqb_neq; lia).
  replace ((Z.of_nat (String.length pre' + S (String.length mid)) =? -1)%Z)
    with false by (symmetry; apply Z.eqb_neq; lia).
  replace ((Z.of_nat (String.length pre' + S (String.length mid))
            <=? Z.of_nat (String.length pre'))%Z)
    with false by (symmetry; apply Z.leb_gt; lia).
  cbn [orb]. f_equal. unfold slice.
  rewrite Nat2Z.id.
  replace (Z.to_nat (Z.of_nat (String.length pre' + S (String.length mid)) + 1)
           - String.length pre')%nat
    with (String.length (String "{" (mid ++ String "}" EmptyString))).
  - change (String "{" (mid ++ String "}" post'))
      with (String "{" (mid ++ (String "}" EmptyString ++ post')))%string.
    rewrite <- (str_app_assoc mid).
    apply (substring_middle pre'
             (String "{" (mid ++ String "}" EmptyString)) post').
  - cbn [String.length]. rewrite str_app_length. cbn [String.length]. lia.
Qed.

Lemma index_of_get (c : ascii) (s : string) (n : nat) :
  index_of c s = Some n -> String.get n s = Some c.
Proof.
  revert n. induction s as [|a s IH]; intros n; cbn; [discriminate|].
  destruct (Ascii.eqb a c) eqn:E.
  - intros H. injection H as <-. apply Ascii.eqb_eq in E. now subst.
  - destruct (index_of c s) as [m|]; [|discriminate].
    cbn. intros H. injection H as <-. now apply IH.
Qed.

Lemma last_index_of_get (c : ascii) (s : string) (n : nat) :
  last_index_of c s = Some n -> String.get n s = Some c.
Proof.
  revert n. induction s as [|a s IH]; intros n; cbn; [discriminate|].
  destruct (last_index_of c s) as [m|].
  - intros H. injection H as <-. now apply IH.
  - destruct (Ascii.eqb a c) eqn:E; [|discriminate].
    intros H. injection H as <-. apply Ascii.eqb_eq in E. now subst.
Qed.

Lemma get_has_char (c : ascii) (s : string) (n : nat) :
  String.get n s = Some c -> has_char c s = true.
Proof.
  revert n. induction s as [|a s IH]; intros n; cbn; [discriminate|].
  destruct n as [|n].
  - intros H. injection H as ->. now rewrite Ascii.eqb_refl.
  - intros H. rewrite (IH n H). apply orb_true_r.
Qed.

Lemma get_rstrip (c : ascii) (s : string) (n : nat) :
  String.get n (rstrip s) = Some c -> String.get n s = Some c.
Proof.
  revert n. induction s as [|a s IH]; intros n; cbn [rstrip]; [trivial|].
  destruct (rstrip s) as [|b kept] eqn:E.
  - destruct (is_space a); [discriminate|].
    destruct n as [|n]; cbn; [trivial|]. now destruct n.
  - destruct n as [|n]; cbn; [trivial|]. apply IH.
Qed.

Lemma lstrip_suffix (s : string) :
  exists w, s = (w ++ lstrip s)%string.
Proof.
  induction s as [|a s [w IH]]; cbn.
  - now exists EmptyString.
  - destruct (is_space a).
    + exists (String a w). cbn. now rewrite <- IH.
    + now exists EmptyString.
Qed.

Lemma get_app_cases (a b : string) (j : nat) (c : ascii) :
  String.get j (a ++ b) = Some c ->
  has_char c a = true
  \/ (String.length a <= j)%nat
     /\ String.get (j - String.length a) b = Some c.
Proof.
  intros H. destruct (Nat.lt_ge_cases j (String.length a)) as [Hlt|Hge].
  - left. rewrite <- (append_correct1 a b j Hlt) in H.
    now apply get_has_char with j.
  - right. split; [exact Hge|].
    rewrite (append_correct2 a b (j - String.length a)).
    now replace (j - String.length a + String.length a)%nat with j by lia.
Qed.

Lemma object_text_split (a b : string) :
  has_char "{" a = false -> has_char "}" b = false ->
  object_text (a ++ b) = Raises NoJsonObject.
Proof.
  intros Ha Hb. unfold object_text, find, rfind.
  set (txt := strip (a ++ b)).
  destruct (index_of "{" txt) as [n1|] eqn:H1; [|reflexivity].
  destruct (last_index_of "}" txt) as [n2|] eqn:H2;
    [|cbn [orb]; now rewrite orb_true_r].
  destruct (Z.leb_spec (Z.of_nat n2) (Z.of_nat n1)) as [Hle|Hgt];
    [now rewrite !orb_true_r|].
  exfalso.
  apply index_of_get in H1. apply last_index_of_get in H2.
  unfold txt, strip in H1, H2. apply get_rstrip in H1, H2.
  destruct (lstrip_suffix (a ++ b)) as [w Hw].
  rewrite (append_correct2 w) in H1, H2. rewrite <- Hw in H1, H2.
  apply get_app_cases in H1 as [F | [Hge1 _]]; [congruence|].
  replace (n2 + String.length w)%nat
    with (n2 + String.length w - String.length a + String.length a)%nat
    in H2 by lia.
  rewrite <- (append_correct2 a b) in H2.
  apply get_has_char in H2. congruence.
Qed.

(** X18.  Text around the object is ignored: whatever stands before the
    first opening brace and after the last closing one (code fences,
    prose, blanks), both validators hand the parser exactly the text from
    brace to brace and answer as they do on that text alone. *)
Theorem stray_text_is_ignored (json_loads : Loader) (pre mid post : string) :
  has_char "{" pre = false ->
  has_char "}" post = false ->
  let body := String "{" (mid ++ String "}" EmptyString) in
  let text := (pre ++ String "{" (mid ++ String "}" post))%string in
  object_text text = Returns body
  /\ Parasynth.validate_and_parse_json json_loads text
     = Parasynth.validate_and_parse_json json_loads body
  /\ Aa.validate_and_parse_json json_loads text
     = Aa.validate_and_parse_json json_loads body.
Proof.
  intros Hpre Hpost body text.
  assert (Htext : object_text text = Returns body)
    by now apply object_text_fenced.
  assert (Hbody : object_text body = Returns body)
    by (apply (object_text_fenced EmptyString mid EmptyString); reflexivity).
  unfold Parasynth.validate_and_parse_json, Aa.validate_and_parse_json.
  rewrite Htext, Hbody. now repeat split.
Qed.

Lemma stray_text_is_ignored_witness :
  object_text "Here is the design: {Tire_OD: 600 mm} I hope it helps."
  = Returns "{Tire_OD: 600 mm}"%string.
Proof.
  apply (stray_text_is_ignored (fun _ => None) "Here is the design: "
           "Tire_OD: 600 mm" " I hope it helps.");
    reflexivity.
Defined.

(** X19.  A text in which no opening brace comes before a closing one
    (no brace at all, only one kind, or every closing brace first) is
    rejected with the "no JSON object" error by both validators, and the
    parser is not consulted. *)
Theorem text_without_object_is_rejected (json_loads : Loader)
    (before after : string) :
  has_char "{" before = false ->
  has_char "}" after = false ->
  Parasynth.validate_and_parse_json json_loads (before ++ after)
  = Raises NoJsonObject
  /\ Aa.validate_and_parse_json json_loads (before ++ after)
     = Raises NoJsonObject.
Proof.
  intros Hb Ha.
  unfold Parasynth.validate_and_parse_json, Aa.validate_and_parse_json.
  rewrite (object_text_split before after Hb Ha). now split.
Qed.

Lemma text_without_object_is_rejected_witness :
  Parasynth.validate_and_parse_json (fun _ => Some (JObject design_in_text))
    "} sorry, no design {"
  = Raises NoJsonObject.
Proof.
  apply (text_without_object_is_rejected
           (fun _ => Some (JObject design_in_text)) "} sorry, no design " "{");
    reflexivity.
Defined.

(** ** What is accepted *)

Lemma parse_object_returns (json_loads : Loader) (txt : string)
    (d : list (string * json)) :
  parse_object json_loads txt = Returns d
  <-> json_loads txt = Some (JObject d)
      /\ forall key, In key required_keys -> has_key key d = true.
Proof.
  unfold parse_object. destruct (json_loads txt) as [[| | | | |members]|];
    try (split; [discriminate | intros [F _]; discriminate]).
  destruct (filter _ required_keys) as [|k missing] eqn:Hf.
  - split.
    + intros E. injection E as <-. split; [reflexivity|].
      intros key Hin.
      destruct (has_key key members) eqn:Hk; [reflexivity|].
      assert (In key (filter (fun key => negb (has_key key members))
                        required_keys))
        by (apply filter_In; split; [exact Hin | now rewrite Hk]).
      rewrite Hf in H. destruct H.
    + intros [E _]. now injection E as <-.
  - split; [discriminate|]. intros [E Hall]. injection E as <-.
    assert (Hin : In k (filter (fun key => negb (has_key key members))
                          required_keys)) by (rewrite Hf; now left).
    apply filter_In in Hin as [Hin Hk]. rewrite (Hall k Hin) in Hk.
    discriminate.
Qed.

Lemma has_key_get (key : string) (d : list (string * json)) :
  has_key key d = true <-> exists v, dict_get key d = Some v.
Proof.
  induction d as [|[k v] d IH]; cbn.
  - split; [discriminate | intros [v F]; discriminate].
  - destruct (String.eqb k key); cbn; [|exact IH].
    split; [intros _; now exists v | reflexivity].
Qed.

Lemma text_with_content_spec (value : option json) :
  Parasynth.text_with_content value = true
  <-> exists s, value = Some (JString s) /\ strip s <> EmptyString.
Proof.
  unfold Parasynth.text_with_content.
  destruct value as [[| | |s| |]|];
    try (split; [discriminate | intros (s' & F & _); discriminate]).
  destruct (strip s) eqn:E.
  - split; [discriminate|]. intros (s' & F & Hs). injection F as <-.
    congruence.
  - split; [intros _|reflexivity]. exists s. split; [reflexivity|].
    rewrite E. discriminate.
Qed.

Lemma first_bad_key_none (keys : list string) (d : list (string * json)) :
  Parasynth.first_bad_key keys d = None
  <-> forall key, In key keys ->
                  Parasynth.text_with_content (dict_get key d) = true.
Proof.
  induction keys as [|k keys IH]; cbn.
  - split; [intros _ key [] | reflexivity].
  - destruct (Parasynth.text_with_content (dict_get k d)) eqn:E.
    + rewrite IH. split.
      * intros Hall key [<-|Hin]; [exact E | now apply Hall].
      * intros Hall key Hin. apply Hall. now right.
    + split; [discriminate|]. intros Hall.
      rewrite (Hall k (or_introl eq_refl)) in E. discriminate.
Qed.

Lemma parasynth_returns (json_loads : Loader) (text : string)
    (d : list (string * json)) :
  Parasynth.validate_and_parse_json json_loads text = Returns d
  <-> exists txt,
        object_text text = Returns txt
        /\ parse_object json_loads txt = Returns d
        /\ Parasynth.first_bad_key Parasynth.design_keys d = None.
Proof.
  unfold Parasynth.validate_and_parse_json. split.
  - destruct (object_text text) as [txt|e]; [|discriminate].
    destruct (parse_object json_loads txt) as [d'|e] eqn:Hp; [|discriminate].
    destruct (Parasynth.first_bad_key Parasynth.design_keys d') eqn:Hk;
      [discriminate|].
    intros E. injection E as <-. now exists txt.
  - intros (txt & -> & -> & ->). reflexivity.
Qed.

Lemma aa_returns (json_loads : Loader) (text : string)
    (d : list (string * json)) :
  Aa.validate_and_parse_json json_loads text = Returns d
  <-> exists txt,
        object_text text = Returns txt
        /\ parse_object json_loads txt = Returns d
        /\ Aa.not_a_number (dict_get "Tread_Spacing" d) = false
        /\ Aa.modulo_raises (dict_get "Tread_Spacing" d) = false.
Proof.
  unfold Aa.validate_and_parse_json. split.
  - destruct (object_text text) as [txt|e]; [|discriminate].
    destruct (parse_object json_loads txt) as [d'|e] eqn:Hp; [|discriminate].
    destruct (Aa.not_a_number (dict_get "Tread_Spacing" d')) eqn:Hn;
      [discriminate|].
    destruct (Aa.modulo_raises (dict_get "Tread_Spacing" d')) eqn:Hm;
      [discriminate|].
    intros E. injection E as <-. now exists txt.
  - intros (txt & -> & -> & -> & ->). reflexivity.
Qed.

(** X20.  [parasynth.py] accepts a text exactly when the text between
    the braces parses to an object that has the five required keys and
    whose four design values are strings with something other than blanks
    in them; what it returns is that object. *)
Theorem parasynth_accepts_iff (json_loads : Loader) (text : string)
    (d : list (string * json)) :
  Parasynth.validate_and_parse_json json_loads text = Returns d
  <-> exists txt,
        object_text text = Returns txt
        /\ json_loads txt = Some (JObject d)
        /\ (forall key, In key required_keys -> has_key key d = true)
        /\ (forall key, In key Parasynth.design_keys ->
              exists s, dict_get key d = Some (JString s)
                        /\ strip s <> EmptyString).
Proof.
  rewrite parasynth_returns. split.
  - intros (txt & E1 & E2 & E3). exists txt. split; [exact E1|].
    apply parse_object_returns in E2 as [E2 Hkeys].
    split; [exact E2|]. split; [exact Hkeys|].
    intros key Hin. apply text_with_content_spec.
    now apply (first_bad_key_none Parasynth.design_keys d).
  - intros (txt & E1 & E2 & Hkeys & Hdesign). exists txt.
    split; [exact E1|]. split; [now apply parse_object_returns|].
    apply first_bad_key_none. intros key Hin.
    apply text_with_content_spec. now apply Hdesign.
Qed.

Lemma parasynth_accepts_iff_witness :
  Parasynth.validate_and_parse_json
    (loads_only "{design}" (JObject design_in_text)) "json: {design} done"
  = Returns design_in_text.
Proof.
  apply (proj2 (parasynth_accepts_iff
                  (loads_only "{design}" (JObject design_in_text))
                  "json: {design} done" design_in_text)).
  exists "{design}"%string.
  split; [reflexivity|]. split; [reflexivity|]. split.
  - intros key Hin. cbn in Hin.
    destruct Hin as [<-|[<-|[<-|[<-|[<-|[]]]]]]; reflexivity.
  - intros key Hin. cbn in Hin.
    destruct Hin as [<-|[<-|[<-|[<-|[]]]]];
      (eexists; split; [reflexivity | vm_compute; discriminate]).
Defined.

(** X21.  [aa.py] accepts a text exactly when the text between the braces
    parses to an object with the five required keys whose "Tread_Spacing"
    is null, true or a number other than 0.  On the number 0 or on false
    the leftover [360 % spacing] raises [ZeroDivisionError], which is not
    the [ValueError] the docstring promises. *)
Theorem aa_accepts_iff (json_loads : Loader) (text : string)
    (d : list (string * json)) :
  (Aa.validate_and_parse_json json_loads text = Returns d
   <-> exists txt,
         object_text text = Returns txt
         /\ json_loads txt = Some (JObject d)
         /\ (forall key, In key required_keys -> has_key key d = true)
         /\ (dict_get "Tread_Spacing" d = Some JNull
             \/ dict_get "Tread_Spacing" d = Some (JBool true)
             \/ exists x, dict_get "Tread_Spacing" d = Some (JNumber x)
                          /\ x <> 0))
  /\ (forall txt,
        object_text text = Returns txt ->
        json_loads txt = Some (JObject d) ->
        (forall key, In key required_keys -> has_key key d = true) ->
        dict_get "Tread_Spacing" d = Some (JNumber 0)
        \/ dict_get "Tread_Spacing" d = Some (JBool false) ->
        Aa.validate_and_parse_json json_loads text = Raises ZeroDivisionError
        /\ is_value_error ZeroDivisionError = false).
Proof.
  split.
  - rewrite aa_returns. split.
    + intros (txt & E1 & E2 & Hn & Hm). exists txt. split; [exact E1|].
      apply parse_object_returns in E2 as [E2 Hkeys].
      split; [exact E2|]. split; [exact Hkeys|].
      assert (Hhas : has_key "Tread_Spacing" d = true)
        by (apply Hkeys; cbn; tauto).
      apply has_key_get in Hhas as [v Hv]. rewrite Hv in *.
      destruct v as [|[|]|x|s|l|m]; try discriminate; auto.
      right. right. exists x. split; [reflexivity|].
      cbn in Hm. destruct (Req_dec_T x 0); [discriminate | assumption].
    + intros (txt & E1 & E2 & Hkeys & Hsp). exists txt.
      split; [exact E1|]. split; [now apply parse_object_returns|].
      destruct Hsp as [-> | [-> | (x & -> & Hx)]]; cbn; try (now split).
      destruct (Req_dec_T x 0); [contradiction | now split].
  - intros txt E1 E2 Hkeys Hzero. split; [|reflexivity].
    unfold Aa.validate_and_parse_json. rewrite E1.
    replace (parse_object json_loads txt) with (Returns d)
      by (symmetry; now apply parse_object_returns).
    destruct Hzero as [-> | ->]; cbn; [|reflexivity].
    destruct (Req_dec_T 0 0) as [_|F]; [reflexivity | now contradiction F].
Qed.

Lemma aa_accepts_iff_witness :
  Aa.validate_and_parse_json
    (loads_only "{design}" (JObject (design_in_numbers (JNumber 0))))
    "json: {design} done"
  = Raises ZeroDivisionError.
Proof.
  apply (proj2 (aa_accepts_iff
                  (loads_only "{design}"
                     (JObject (design_in_numbers (JNumber 0))))
                  "json: {design} done" (design_in_numbers (JNumber 0)))
           "{design}"%string).
  - reflexivity.
  - reflexivity.
  - intros key Hin. cbn in Hin.
    destruct Hin as [<-|[<-|[<-|[<-|[<-|[]]]]]]; reflexivity.
  - left. reflexivity.
Defined.

(** X22.  The two validators never accept the same answer: what
    [parasynth.py] accepts has a string for "Tread_Spacing", which
    [aa.py] rejects as not a number; what [aa.py] accepts has no string
    there, which [parasynth.py] rejects at its first design key. *)
Theorem validators_exclude_each_other (json_loads : Loader) (text : string)
    (d : list (string * json)) :
  (Parasynth.validate_and_parse_json json_loads text = Returns d ->
   Aa.validate_and_parse_json json_loads text = Raises SpacingNotNumber)
  /\ (Aa.validate_and_parse_json json_loads text = Returns d ->
      Parasynth.validate_and_parse_json json_loads text
      = Raises (DesignKeyNotText "Tread_Spacing")).
Proof.
  split.
  - intros Hp. apply parasynth_returns in Hp as (txt & E1 & E2 & Hkeys).
    assert (Hs : Parasynth.text_with_content (dict_get "Tread_Spacing" d)
                 = true)
      by (apply (first_bad_key_none Parasynth.design_keys d);
          [exact Hkeys | cbn; tauto]).
    apply text_with_content_spec in Hs as (s & Hs & _).
    unfold Aa.validate_and_parse_json. rewrite E1, E2, Hs. reflexivity.
  - intros Ha. apply aa_returns in Ha as (txt & E1 & E2 & Hn & _).
    unfold Parasynth.validate_and_parse_json. rewrite E1, E2.
    cbn [Parasynth.first_bad_key Parasynth.design_keys].
    destruct (dict_get "Tread_Spacing" d) as [[| | |s| |]|];
      try reflexivity; discriminate.
Qed.

Lemma validators_exclude_each_other_witness :
  Aa.validate_and_parse_json
    (loads_only "{design}" (JObject design_in_text)) "json: {design} done"
  = Raises SpacingNotNumber.
Proof.
  apply (proj1 (validators_exclude_each_other
                  (loads_only "{design}" (JObject design_in_text))
                  "json: {design} done" design_in_text)).
  reflexivity.
Defined.

